(** * IoT sensor data collector: store client, generator and queries

    A shallow embedding of the Python modules [db_connection],
    [schema_setup], [data_generator] and [query_analysis], and the
    properties of the time-series contract that they implement on top of a
    partitioned, clustered store.

    Conventions of the embedding.
    - A timestamp is an instant in milliseconds ([Z]); a sensor value is an
      exact rational ([Q]) standing for the DOUBLE column.
    - The cluster behind a session, the console, the clock, the random
      source and the keyboard are the fields of one [world]; every Python
      function is a computation [M A] that threads the world and may raise.
    - Every [print] call is an event appended to [stdout]; decorative rules
      and blank lines are folded into the event of the message they frame. *)

From Stdlib Require Import ZArith QArith Qround Qabs Lqa Ascii.
From stdpp Require Import base option list strings gmap sorting.

Local Open Scope Z_scope.

(** ** Data model *)

(** One row of the readings table, in the column order of the schema. *)
Record reading := Reading {
  device_id : string;
  timestamp : Z;
  sensor_type : string;
  sensor_value : Q
}.

(** A table maps its primary key [(device_id, timestamp)] to the two
    regular columns [(sensor_type, sensor_value)]. *)
Record database := Database {
  keyspaces : gmap string Z;
  tables : gmap (string * string) (gmap (string * Z) (string * Q));
  accepts_replication : Z → bool
}.

(** The statements that the modules send, one constructor per CQL text. *)
Inductive statement :=
| SelectKeyspace (ks : string)
| CreateKeyspace (ks : string) (rf : Z)
| SelectTable (ks tbl : string)
| CreateTable (ks tbl : string)
| InsertReading (ks tbl : string) (r : reading)
| SelectRecent (ks tbl dev : string) (limit : Z)
| SelectValues (ks tbl dev ty : string)
| SelectDistinctDevices (ks tbl : string).

(** The statements that are prepared before they are bound. *)
Inductive template :=
| InsertT (ks tbl : string)
| RecentT (ks tbl : string)
| ValuesT (ks tbl : string).

(** A PreparedStatement object. *)
Record prepared := Prepared { prepared_query : template }.

Inductive request :=
| Prepare (t : template)
| Execute (s : statement).

Inductive resultset :=
| RNames (names : list string)
| RReadings (rows : list reading)
| RValues (vals : list Q)
| RVoid.

Inductive exn :=
| NoHostAvailable
| InvalidRequest
| ConfigurationException
| ValueError
| KeyError
| IndexError
| EOFError.

(** A DataFrame: its column labels and its rows. *)
Record DataFrame := Frame {
  columns : list string;
  records : list reading
}.

Inductive message :=
| KeyspaceNoSession
| KeyspaceExists (ks : string)
| KeyspaceCreated (ks : string) (rf : Z)
| KeyspaceFailed (ks : string) (e : exn)
| TableCheckError (e : exn)
| TableNoSession
| TableExists (tbl ks : string)
| TableCreated (tbl ks : string)
| TableNotePartition
| TableNoteClustering
| TableNoteOptimized
| TableFailed (tbl : string) (e : exn)
| InsertError (e : exn)
| InsertPrepared (ks tbl : string)
| InsertPrepareFailed (e : exn)
| InsertLogged (ts : Z) (dev ty : string) (v : Q)
| InsertFailedFor (dev : string)
| QueryNoSession
| NoReadingsFound (dev : string)
| RecentError (e : exn)
| NoReadingsFoundFor (dev ty : string)
| AverageError (e : exn)
| DevicesError (e : exn)
| RecentBanner
| DeviceIdEmpty
| LimitNotPositive
| LimitInvalid
| Fetching (limit : Z) (dev : string)
| RecentTable (df : DataFrame)
| NoReadingsShown.

(** What the network does to one request: how long it takes and whether
    the store can be reached. *)
Record net_event := NetEvent {
  latency : positive;
  outage : bool
}.

Record world := World {
  db : database;
  net : list net_event;
  clock : Z;
  rng : list Q;
  stdin : list string;
  stdout : list message;
  wire : list request
}.

(** ** Computations: state and exceptions *)

Inductive outcome (A : Type) :=
| Ok (a : A)
| Raise (e : exn).
Arguments Ok {A} a.
Arguments Raise {A} e.

Definition M (A : Type) : Type := world → outcome A * world.

#[global] Instance M_ret : MRet M := λ A a w, (Ok a, w).

#[global] Instance M_bind : MBind M := λ A B k m w,
  match m w with
  | (Ok a, w') => k a w'
  | (Raise e, w') => (Raise e, w')
  end.

#[global] Instance M_fmap : FMap M := λ A B f m w,
  match m w with
  | (Ok a, w') => (Ok (f a), w')
  | (Raise e, w') => (Raise e, w')
  end.

Definition raise {A} (e : exn) : M A := λ w, (Raise e, w).

(** [try: body except Exception as e: handler e]. *)
Definition try_except {A} (body : M A) (handler : exn → M A) : M A :=
  λ w, match body w with
       | (Ok a, w') => (Ok a, w')
       | (Raise e, w') => handler e w'
       end.

(** [for x in l: body x]. *)
Fixpoint for_each {A} (l : list A) (body : A → M unit) : M unit :=
  match l with
  | [] => mret tt
  | x :: l' => body x;; for_each l' body
  end.

Definition say (m : message) (w : world) : world :=
  World (db w) (net w) (clock w) (rng w) (stdin w) (stdout w ++ [m]) (wire w).

Definition print (m : message) : M unit := λ w, (Ok tt, say m w).

(** [datetime.now()]. *)
Definition datetime_now : M Z := λ w, (Ok (clock w), w).

(** [input(prompt)]: the next line typed; [EOFError] once the input is
    exhausted. *)
Definition input : M string :=
  λ w, match stdin w with
       | line :: rest =>
           (Ok line, World (db w) (net w) (clock w) (rng w) rest
                           (stdout w) (wire w))
       | [] => (Raise EOFError, w)
       end.

(** The world once a draw has been taken from the generator. *)
Definition drawn (w : world) : world :=
  World (db w) (net w) (clock w) (tl (rng w)) (stdin w) (stdout w) (wire w).

(** [random.random()]: the next draw of the generator. *)
Definition random_random : M Q := λ w, (Ok (hd 0%Q (rng w)), drawn w).

(** ** The store

    The database behind the driver is no part of the modules; it is given
    by the contract of the statements that they send.  The cluster executes
    one statement at a time and answers it as written: a table is keyed by
    device and instant, a write under a key that is taken replaces the row,
    and within a partition the rows are clustered by timestamp, newest
    first.  It rejects a statement on a table that is not there, a row
    limit that is not positive, and the replication factors that
    [accepts_replication] rules out. *)

Definition newer_first (r1 r2 : reading) : Prop := timestamp r2 ≤ timestamp r1.

#[global] Instance newer_first_dec r1 r2 : Decision (newer_first r1 r2) :=
  Z_le_dec (timestamp r2) (timestamp r1).

Definition row_of (kv : (string * Z) * (string * Q)) : reading :=
  Reading kv.1.1 kv.1.2 kv.2.1 kv.2.2.

(** The rows of a table, in no particular order. *)
Definition table_rows (t : gmap (string * Z) (string * Q)) : list reading :=
  row_of <$> map_to_list t.

(** The partition of one device, in clustering order. *)
Definition partition_rows (t : gmap (string * Z) (string * Q)) (dev : string)
  : list reading :=
  merge_sort newer_first (filter (λ r, device_id r = dev) (table_rows t)).

(** The partition keys present in a table. *)
Definition partition_keys (t : gmap (string * Z) (string * Q)) : list string :=
  elements (set_map (D := gset string) fst (dom t)).

Definition upsert (r : reading) (t : gmap (string * Z) (string * Q))
  : gmap (string * Z) (string * Q) :=
  <[(device_id r, timestamp r) := (sensor_type r, sensor_value r)]> t.

Definition with_keyspaces (d : database) (k : gmap string Z) : database :=
  Database k (tables d) (accepts_replication d).

Definition with_tables (d : database)
    (t : gmap (string * string) (gmap (string * Z) (string * Q))) : database :=
  Database (keyspaces d) t (accepts_replication d).

(** What the store answers to a statement, and the state it is left in. *)
Definition run_statement (s : statement) (d : database)
  : outcome resultset * database :=
  match s with
  | SelectKeyspace ks =>
      match keyspaces d !! ks with
      | Some _ => (Ok (RNames [ks]), d)
      | None => (Ok (RNames []), d)
      end
  | CreateKeyspace ks rf =>
      match keyspaces d !! ks with
      | Some _ => (Ok RVoid, d)
      | None =>
          if accepts_replication d rf
          then (Ok RVoid, with_keyspaces d (<[ks := rf]> (keyspaces d)))
          else (Raise ConfigurationException, d)
      end
  | SelectTable ks tbl =>
      match tables d !! (ks, tbl) with
      | Some _ => (Ok (RNames [tbl]), d)
      | None => (Ok (RNames []), d)
      end
  | CreateTable ks tbl =>
      match tables d !! (ks, tbl) with
      | Some _ => (Ok RVoid, d)
      | None =>
          match keyspaces d !! ks with
          | Some _ => (Ok RVoid, with_tables d (<[(ks, tbl) := ∅]> (tables d)))
          | None => (Raise InvalidRequest, d)
          end
      end
  | InsertReading ks tbl r =>
      match tables d !! (ks, tbl) with
      | Some t => (Ok RVoid, with_tables d (<[(ks, tbl) := upsert r t]> (tables d)))
      | None => (Raise InvalidRequest, d)
      end
  | SelectRecent ks tbl dev limit =>
      match tables d !! (ks, tbl) with
      | Some t =>
          if decide (0 < limit)
          then (Ok (RReadings (take (Z.to_nat limit) (partition_rows t dev))), d)
          else (Raise InvalidRequest, d)
      | None => (Raise InvalidRequest, d)
      end
  | SelectValues ks tbl dev ty =>
      match tables d !! (ks, tbl) with
      | Some t =>
          (Ok (RValues (sensor_value <$>
                 filter (λ r, sensor_type r = ty) (partition_rows t dev))), d)
      | None => (Raise InvalidRequest, d)
      end
  | SelectDistinctDevices ks tbl =>
      match tables d !! (ks, tbl) with
      | Some t => (Ok (RNames (partition_keys t)), d)
      | None => (Raise InvalidRequest, d)
      end
  end.

Definition template_table (t : template) : string * string :=
  match t with
  | InsertT ks tbl | RecentT ks tbl | ValuesT ks tbl => (ks, tbl)
  end.

(** ** The driver

    A session is a handle on the cluster of the world; it keeps no state
    of its own that the modules read.  Every call of the driver is one
    request on the wire: it takes the time and meets the availability
    that the network has in store for it. *)

Record Session := Connected { }.

Definition default_event : net_event := NetEvent 1 false.

(** The world once a request has gone out. *)
Definition transmit (r : request) (w : world) : world :=
  World (db w) (tl (net w))
        (clock w + Z.pos (latency (hd default_event (net w))))
        (rng w) (stdin w) (stdout w) (wire w ++ [r]).

Definition send (r : request) : M unit :=
  λ w, if outage (hd default_event (net w))
       then (Raise NoHostAvailable, transmit r w)
       else (Ok tt, transmit r w).

Definition set_db (d : database) (w : world) : world :=
  World d (net w) (clock w) (rng w) (stdin w) (stdout w) (wire w).

Definition store_run (s : statement) : M resultset :=
  λ w, let '(o, d) := run_statement s (db w) in (o, set_db d w).

(** The store answers the next [n] requests. *)
Definition available (n : nat) (w : world) : bool :=
  forallb (λ ev, negb (outage ev)) (take n (net w)).

(** [session.execute(query, parameters)]. *)
Definition session_execute (_ : Session) (s : statement) : M resultset :=
  send (Execute s);; store_run s.

(** The store compiles a statement only against a table that exists. *)
Definition store_prepare (t : template) : M prepared :=
  λ w, match tables (db w) !! template_table t with
       | Some _ => (Ok (Prepared t), w)
       | None => (Raise InvalidRequest, w)
       end.

(** [session.prepare(query)]. *)
Definition session_prepare (_ : Session) (t : template) : M prepared :=
  send (Prepare t);; store_prepare t.

(** Rows of a result set, as the loops over it read them. *)
Definition result_names (r : resultset) : list string :=
  match r with RNames l => l | _ => [] end.

Definition result_readings (r : resultset) : list reading :=
  match r with RReadings l => l | _ => [] end.

Definition result_values (r : resultset) : list Q :=
  match r with RValues l => l | _ => [] end.

(** [result.one()]. *)
Definition result_one (r : resultset) : option string := head (result_names r).

(** The values bound to the markers of a prepared statement. *)
Inductive parameters :=
| InsertArgs (r : reading)
| RecentArgs (dev : string) (limit : Z)
| ValuesArgs (dev ty : string).

(** Binding fails when the values do not fit the markers. *)
Definition bind_parameters (p : prepared) (a : parameters) : M statement :=
  match prepared_query p, a with
  | InsertT ks tbl, InsertArgs r => mret (InsertReading ks tbl r)
  | RecentT ks tbl, RecentArgs dev limit => mret (SelectRecent ks tbl dev limit)
  | ValuesT ks tbl, ValuesArgs dev ty => mret (SelectValues ks tbl dev ty)
  | _, _ => raise ValueError
  end.

(** [session.execute(prepared, parameters)]. *)
Definition session_execute_prepared (s : Session) (p : prepared)
    (a : parameters) : M resultset :=
  stmt ← bind_parameters p a; session_execute s stmt.

(** ** Numbers of the Python side *)

Local Open Scope Q_scope.

(** The nearest integer, ties to the even one. *)
Definition round_half_even (y : Q) : Z :=
  let f := Qfloor y in
  match Qcompare (y - inject_Z f) (1 # 2) with
  | Lt => f
  | Gt => (f + 1)%Z
  | Eq => if Z.even f then f else (f + 1)%Z
  end.

(** [round(x, 2)]. *)
Definition round2 (x : Q) : Q := Qred (round_half_even (x * 100) # 100).

Definition Qsum (l : list Q) : Q := foldr Qplus 0 l.

(** [Series.mean()] of a column that is not empty. *)
Definition mean (l : list Q) : Q := Qsum l / inject_Z (Z.of_nat (length l)).

(** [int(x)] of a number: truncation towards zero. *)
Definition py_int (x : Q) : Z := Z.quot (Qnum x) (Z.pos (Qden x)).

(** [seq[i]], a negative index counting from the end. *)
Definition py_index {A} (seq : list A) (i : Z) : M A :=
  let j := if decide (0 ≤ i)%Z then i else (Z.of_nat (length seq) + i)%Z in
  if decide (0 ≤ j)%Z
  then match seq !! Z.to_nat j with
       | Some x => mret x
       | None => raise IndexError
       end
  else raise IndexError.

(** The generator's integer below [n], from one draw of [random()]. *)
Definition randbelow (n : Z) : M Z :=
  u ← random_random; mret (Qfloor (u * inject_Z n)).

(** [random.choice(seq)]. *)
Definition random_choice {A} (seq : list A) : M A :=
  i ← randbelow (Z.of_nat (length seq)); py_index seq i.

(** [random.uniform(a, b)]. *)
Definition random_uniform (a b : Q) : M Q :=
  u ← random_random; mret (a + (b - a) * u).

(** [random.randint(a, b)]. *)
Definition random_randint (a b : Z) : M Z :=
  k ← randbelow (b - a + 1); mret (a + k)%Z.

Local Close Scope Q_scope.

(** ** db_connection *)

Definition default_keyspace : string := "iot_data".
Definition default_table : string := "sensor_readings".
Definition default_replication_factor : Z := 1.

Definition create_keyspace_if_not_exists (session : option Session)
    (keyspace_name : string) (replication_factor : Z) : M bool :=
  match session with
  | None => print KeyspaceNoSession;; mret false
  | Some s =>
      try_except
        (result ← session_execute s (SelectKeyspace keyspace_name);
         match result_one result with
         | Some _ => print (KeyspaceExists keyspace_name);; mret true
         | None =>
             session_execute s (CreateKeyspace keyspace_name replication_factor);;
             print (KeyspaceCreated keyspace_name replication_factor);;
             mret true
         end)
        (λ e, print (KeyspaceFailed keyspace_name e);; mret false)
  end.

(** ** schema_setup *)

Definition table_exists (session : option Session)
    (keyspace_name table_name : string) : M bool :=
  match session with
  | None => mret false
  | Some s =>
      try_except
        (result ← session_execute s (SelectTable keyspace_name table_name);
         mret (bool_decide (is_Some (result_one result))))
        (λ e, print (TableCheckError e);; mret false)
  end.

Definition create_table (session : option Session)
    (keyspace_name table_name : string) : M bool :=
  match session with
  | None => print TableNoSession;; mret false
  | Some s =>
      try_except
        (found ← table_exists session keyspace_name table_name;
         if found : bool
         then print (TableExists table_name keyspace_name);; mret true
         else
           session_execute s (CreateTable keyspace_name table_name);;
           print (TableCreated table_name keyspace_name);;
           print TableNotePartition;;
           print TableNoteClustering;;
           print TableNoteOptimized;;
           mret true)
        (λ e, print (TableFailed table_name e);; mret false)
  end.

(** ** data_generator *)

Definition DEVICE_IDS : list string := ["device_1"; "device_2"; "device_3"].
Definition SENSOR_TYPES : list string := ["temperature"; "humidity"; "motion"].

Definition SENSOR_RANGES : gmap string (Q * Q) :=
  list_to_map [("temperature", (20, 35)%Q);
               ("humidity", (30, 90)%Q);
               ("motion", (0, 1)%Q)].

Definition generate_sensor_reading (device_id : string)
  : M (string * string * Q) :=
  sensor_type ← random_choice SENSOR_TYPES;
  '(min_val, max_val) ← match SENSOR_RANGES !! sensor_type with
                        | Some range => mret range
                        | None => raise KeyError
                        end;
  sensor_value ←
    (if decide (sensor_type = "motion")
     then inject_Z <$> random_randint (py_int min_val) (py_int max_val)
     else round2 <$> random_uniform min_val max_val);
  mret (device_id, sensor_type, sensor_value).

Definition insert_sensor_reading (session : option Session)
    (prepared_statement : option prepared) (device_id : string)
    (timestamp : Z) (sensor_type : string) (sensor_value : Q) : M bool :=
  match session, prepared_statement with
  | Some s, Some p =>
      try_except
        (session_execute_prepared s p
           (InsertArgs (Reading device_id timestamp sensor_type sensor_value));;
         mret true)
        (λ e, print (InsertError e);; mret false)
  | _, _ => mret false
  end.

Definition prepare_insert_statement (session : option Session)
    (keyspace_name table_name : string) : M (option prepared) :=
  match session with
  | None => mret None
  | Some s =>
      try_except
        (prepared_statement ← session_prepare s (InsertT keyspace_name table_name);
         print (InsertPrepared keyspace_name table_name);;
         mret (Some prepared_statement))
        (λ e, print (InsertPrepareFailed e);; mret None)
  end.

Definition generate_and_insert_data (session : option Session)
    (prepared_statement : option prepared) : M unit :=
  timestamp ← datetime_now;
  for_each DEVICE_IDS (λ device_id,
    '(device_id, sensor_type, sensor_value) ← generate_sensor_reading device_id;
    success ← insert_sensor_reading session prepared_statement
                device_id timestamp sensor_type sensor_value;
    if success : bool
    then print (InsertLogged timestamp device_id sensor_type sensor_value)
    else print (InsertFailedFor device_id)).

(** The body of the loop of [generate_and_insert_data], under a name. *)
Definition sweep_step (session : option Session)
    (prepared_statement : option prepared) (timestamp : Z)
    (device_id : string) : M unit :=
  '(device_id, sensor_type, sensor_value) ← generate_sensor_reading device_id;
  success ← insert_sensor_reading session prepared_statement
              device_id timestamp sensor_type sensor_value;
  if success : bool
  then print (InsertLogged timestamp device_id sensor_type sensor_value)
  else print (InsertFailedFor device_id).

(** ** query_analysis *)

Definition reading_columns : list string :=
  ["device_id"; "timestamp"; "sensor_type"; "sensor_value"].

(** [pd.DataFrame()]. *)
Definition empty_frame : DataFrame := Frame [] [].

(** [df.empty]. *)
Definition frame_empty (df : DataFrame) : bool :=
  bool_decide (columns df = []) || bool_decide (records df = []).

Definition get_recent_readings (session : option Session) (device_id : string)
    (limit : Z) (keyspace_name table_name : string) : M DataFrame :=
  match session with
  | None => print QueryNoSession;; mret empty_frame
  | Some s =>
      try_except
        (prepared ← session_prepare s (RecentT keyspace_name table_name);
         result ← session_execute_prepared s prepared (RecentArgs device_id limit);
         let rows := result_readings result in
         match rows with
         | _ :: _ => mret (Frame reading_columns rows)
         | [] =>
             print (NoReadingsFound device_id);;
             mret (Frame reading_columns [])
         end)
        (λ e, print (RecentError e);; mret empty_frame)
  end.

Definition get_average_value (session : option Session)
    (device_id sensor_type keyspace_name table_name : string) : M (option Q) :=
  match session with
  | None => print QueryNoSession;; mret None
  | Some s =>
      try_except
        (prepared ← session_prepare s (ValuesT keyspace_name table_name);
         result ← session_execute_prepared s prepared
                    (ValuesArgs device_id sensor_type);
         let values := result_values result in
         match values with
         | [] =>
             print (NoReadingsFoundFor device_id sensor_type);;
             mret None
         | _ :: _ =>
             let average := mean values in
             mret (Some (round2 average))
         end)
        (λ e, print (AverageError e);; mret None)
  end.

(** [sorted(l)] on strings. *)
Definition sorted (l : list string) : list string := merge_sort String.le l.

Definition get_all_devices (session : option Session)
    (keyspace_name table_name : string) : M (list string) :=
  match session with
  | None => print QueryNoSession;; mret []
  | Some s =>
      try_except
        (result ← session_execute s
                    (SelectDistinctDevices keyspace_name table_name);
         let device_ids := result_names result in
         mret (sorted device_ids))
        (λ e, print (DevicesError e);; mret [])
  end.

Section cli.
(** Python's [str.strip] and [int] on a string ([None] for the inputs on
    which [int] raises [ValueError]). *)
Variable strip : string → string.
Variable int_of_str : string → option Z.

(** The [try] block that reads the limit: [None] when the function
    returns from inside it. *)
Definition read_limit : M (option Z) :=
  limit_str ← strip <$> input;
  limit ← (if decide (limit_str = EmptyString) then mret 10
           else match int_of_str limit_str with
                | Some n => mret n
                | None => raise ValueError
                end);
  if decide (limit ≤ 0)
  then print LimitNotPositive;; mret None
  else mret (Some limit).

Definition display_recent_readings (session : option Session) : M unit :=
  print RecentBanner;;
  device_id ← strip <$> input;
  if decide (device_id = EmptyString)
  then print DeviceIdEmpty
  else
    choice ← try_except read_limit
               (λ e, match e with
                     | ValueError => print LimitInvalid;; mret (Some 10)
                     | _ => raise e
                     end);
    match choice with
    | None => mret tt
    | Some limit =>
        print (Fetching limit device_id);;
        df ← get_recent_readings session device_id limit
               default_keyspace default_table;
        if frame_empty df
        then print NoReadingsShown
        else print (RecentTable df)
    end.
End cli.

(** A read of [n] requests fails: the store cannot be reached at one of
    them, or the table is not there. *)
Definition read_fails (n : nat) (w : world) (ks tbl : string) : Prop :=
  available n w = false ∨ tables (db w) !! (ks, tbl) = None.

(** The rows that a table holds for a device, and the values among them
    of one sensor type, straight from the map. *)
Definition stored_readings (w : world) (ks tbl dev : string) : list reading :=
  match tables (db w) !! (ks, tbl) with
  | Some t => filter (λ r, device_id r = dev) (table_rows t)
  | None => []
  end.

(** The values of the stored rows of a device that carry a sensor type. *)
Definition stored_values (w : world) (ks tbl dev ty : string) : list Q :=
  sensor_value <$>
    filter (λ r, sensor_type r = ty) (stored_readings w ks tbl dev).



(** The draws of the generator lie in the unit interval. *)
Definition unit_draw (u : Q) : bool :=
  Qle_bool 0 u && negb (Qle_bool 1 u).

Definition rng_ok (w : world) : bool := forallb unit_draw (rng w).

(** Plain decimal literals, one instance of what [int] accepts. *)
Definition digit_of (c : Ascii.ascii) : option Z :=
  let n := Z.of_nat (Ascii.nat_of_ascii c) in
  if decide (48 ≤ n ≤ 57) then Some (n - 48) else None.

Fixpoint digits_value (acc : Z) (s : string) : option Z :=
  match s with
  | EmptyString => Some acc
  | String c s' => d ← digit_of c; digits_value (10 * acc + d) s'
  end.

Definition decimal_int (s : string) : option Z :=
  match s with
  | EmptyString => None
  | String "-" (String _ _ as ds) => Z.opp <$> digits_value 0 ds
  | String _ _ => digits_value 0 s
  end.

(** The request writes a reading stamped [ts]. *)
Definition insert_at (ts : Z) (r : request) : Prop :=
  ∃ ks tbl row, r = Execute (InsertReading ks tbl row) ∧ timestamp row = ts.

(** The device that a write request is about. *)
Definition request_device (r : request) : option string :=
  match r with
  | Execute (InsertReading _ _ row) => Some (device_id row)
  | _ => None
  end.

(** The regular columns stored under a primary key, if any. *)
Definition reading_at (w : world) (ks tbl dev : string) (ts : Z)
  : option (string * Q) :=
  t ← tables (db w) !! (ks, tbl); t !! (dev, ts).

(** ** Worlds used in the examples *)

Definition fresh_db : database :=
  Database {[ default_keyspace := 1 ]}
           {[ (default_keyspace, default_table) := ∅ ]}
           (λ rf, bool_decide (0 ≤ rf)).

Definition fresh_world : world := World fresh_db [] 0 [] [] [] [].

(** The store behind a slow network that drops the second request, with
    the clock at 1000 and three pairs of draws at hand. *)
Definition busy_world : world :=
  World fresh_db [NetEvent 5 false; NetEvent 7 true; NetEvent 4 false] 1000
        [(1 # 10)%Q; (1 # 2)%Q; (1 # 2)%Q; (1 # 4)%Q; (9 # 10)%Q; (3 # 4)%Q]
        [] [] [].

(** A store without any keyspace. *)
Definition blank_world : world :=
  World (Database ∅ ∅ (λ rf, bool_decide (0 ≤ rf))) [] 0 [] [] [] [].

(** The same store behind a network that drops the next request. *)
Definition unreachable_world : world :=
  World fresh_db [NetEvent 1 true] 0 [] [] [] [].

Definition live : option Session := Some Connected.

Definition insert_prepared : option prepared :=
  Some (Prepared (InsertT default_keyspace default_table)).



(** Readings of device_3, device_1 and device_2, then the catalog. *)
Definition scenario_devices : M (list string) :=
  insert_sensor_reading live insert_prepared "device_3" 1000 "motion" 1;;
  insert_sensor_reading live insert_prepared "device_1" 2000 "humidity" 40;;
  insert_sensor_reading live insert_prepared "device_2" 3000 "temperature" 21;;
  insert_sensor_reading live insert_prepared "device_1" 4000 "motion" 0;;
  get_all_devices live default_keyspace default_table.

(** ** dashboard *)

(** Ascending order of the instants, as [sort_values('timestamp')] puts
    the rows. *)
Definition older_first (r1 r2 : reading) : Prop := timestamp r1 ≤ timestamp r2.

#[global] Instance older_first_dec r1 r2 : Decision (older_first r1 r2) :=
  Z_le_dec (timestamp r1) (timestamp r2).

(** Selecting on a column, or sorting by it, needs its label. *)
Definition filter_readings_by_sensor_type (df : DataFrame)
    (sensor_type0 : string) : outcome DataFrame :=
  if frame_empty df then Ok df
  else if decide ("sensor_type" ∈ columns df)
  then
    let filtered := filter (λ r, sensor_type r = sensor_type0) (records df) in
    if decide ("timestamp" ∈ columns df)
    then Ok (Frame (columns df) (merge_sort older_first filtered))
    else Raise KeyError
  else Raise KeyError.

(** The row that [filtered_df.iloc[-1]] reads. *)
Definition latest_row (df : DataFrame) : option reading := last (records df).






(** ** What the requests on the wire are *)

(** The request only reads. *)
Definition read_only (r : request) : bool :=
  match r with
  | Prepare (RecentT _ _) | Prepare (ValuesT _ _) => true
  | Execute (SelectKeyspace _) | Execute (SelectTable _ _)
  | Execute (SelectRecent _ _ _ _) | Execute (SelectValues _ _ _ _)
  | Execute (SelectDistinctDevices _ _) => true
  | _ => false
  end.

(** What the network has in store for the request after the next [i]. *)
Definition coming_event (w : world) (i : nat) : net_event :=
  hd default_event (drop i (net w)).

(** The write of a row into a table. *)
Definition write_of (ks tbl : string) (r : reading) : request :=
  Execute (InsertReading ks tbl r).

(** From world [w] to world [w'] nothing was written: the database, the
    random source and the keyboard are as they were, and the requests
    that went out only read. *)
Definition only_read (w w' : world) : Prop :=
  db w' = db w ∧ rng w' = rng w ∧ stdin w' = stdin w ∧
  ∃ sent, wire w' = wire w ++ sent ∧ forallb read_only sent = true.

(** Closes a run that sent the requests [l], all of them reads. *)
Ltac only_read_sent l :=
  eexists _, _; split; [reflexivity|];
  split; [done|]; split; [done|]; split; [done|];
  exists l; simpl; rewrite <- ?app_assoc, ?app_nil_r; done.

(** ** Connections

    The cluster objects of the driver and the lines that the connection
    layer prints are kept in a process around the world: the clusters that
    are connected and not shut down, and a journal that takes the lines of
    the modules, in their order, between the lines of this layer. *)

(** What follows an average on the screen. *)
Inductive value_sign := Celsius | Percent | Plain.

Inductive notice :=
| ConnectedTo (host : string) (port : Z)
| ConnectFailed (e : exn)
| KeyspaceSetupFailed
| UsingKeyspace (ks : string)
| SetKeyspaceFailed (ks : string) (e : exn)
| ConnectionClosed
| CloseFailed (e : exn)
| SchemaSetupFailed
| AveragesBanner
| SensorTypesAvailable
| SensorTypeEmpty
| Calculating (ty dev : string)
| AverageShown (dev ty : string) (average : Q) (sign : value_sign)
| NoAverageData
| DevicesBanner
| FetchingDevices
| DevicesFound (n : nat)
| DeviceLine (i : nat) (dev : string)
| DevicesRule
| NoDevicesFound
| MenuShown
| Exiting
| InvalidOption
| MenuError (e : exn)
| CliBanner
| Connecting
| CliConnectFailed
| CliConnected.

Inductive line :=
| Said (m : message)
| Noted (n : notice).

(** A Cluster object. *)
Record Cluster := ClusterOf {
  contact_point : string;
  contact_port : Z;
  cluster_id : nat
}.

Record process := Process {
  ground : world;
  next_cluster : nat;
  open_clusters : gset nat;
  journal : list line
}.

Definition P (A : Type) : Type := process → outcome A * process.

#[global] Instance P_ret : MRet P := λ A a r, (Ok a, r).

#[global] Instance P_bind : MBind P := λ A B k m r,
  match m r with
  | (Ok a, r') => k a r'
  | (Raise e, r') => (Raise e, r')
  end.

(** A computation of the modules, run on the world of the process. *)
Definition lift {A} (m : M A) : P A :=
  λ r, let '(o, w') := m (ground r) in
       (o, Process w' (next_cluster r) (open_clusters r)
             (journal r ++ (Said <$> drop (length (stdout (ground r)))
                                       (stdout w')))).

(** [print] in the connection layer. *)
Definition note (n : notice) : P unit :=
  λ r, (Ok tt, Process (ground r) (next_cluster r) (open_clusters r)
                 (journal r ++ [Noted n])).

(** [try: body except Exception as e: handler e] in the connection layer. *)
Definition attempt {A} (body : P A) (handler : exn → P A) : P A :=
  λ r, match body r with
       | (Ok a, r') => (Ok a, r')
       | (Raise e, r') => handler e r'
       end.

(** A round trip to the store that carries no statement of the modules:
    it takes the time and meets the availability that the network has in
    store, and leaves no entry on the wire. *)
Definition round_trip : M unit :=
  λ w, let w' := World (db w) (tl (net w))
                   (clock w + Z.pos (latency (hd default_event (net w))))
                   (rng w) (stdin w) (stdout w) (wire w) in
       if outage (hd default_event (net w))
       then (Raise NoHostAvailable, w') else (Ok tt, w').

(** [Cluster([host], port=port)]: a new object, not connected yet. *)
Definition new_cluster (host : string) (port : Z) : P Cluster :=
  λ r, (Ok (ClusterOf host port (next_cluster r)),
        Process (ground r) (S (next_cluster r)) (open_clusters r) (journal r)).

Definition mark_open (c : Cluster) : P Session :=
  λ r, (Ok Connected,
        Process (ground r) (next_cluster r)
                ({[cluster_id c]} ∪ open_clusters r) (journal r)).

(** [cluster.connect()]. *)
Definition cluster_connect (c : Cluster) : P Session :=
  lift round_trip;; mark_open c.

(** [cluster.shutdown()]: closes what is open; the driver lets it pass on
    a cluster that is closed already. *)
Definition cluster_shutdown (c : Cluster) : P unit :=
  λ r, (Ok tt, Process (ground r) (next_cluster r)
                 (open_clusters r ∖ {[cluster_id c]}) (journal r)).

Definition keyspace_known (ks : string) : M unit :=
  λ w, match keyspaces (db w) !! ks with
       | Some _ => (Ok tt, w)
       | None => (Raise InvalidRequest, w)
       end.

(** [session.set_keyspace(keyspace_name)]. *)
Definition session_set_keyspace (_ : Session) (ks : string) : P unit :=
  lift (round_trip;; keyspace_known ks).

Definition default_host : string := "localhost".
Definition default_port : Z := 9042.

(** The pair [(session, cluster)] that the functions of the connection
    layer return is two objects or [(None, None)]. *)
Definition create_connection (host : string) (port : Z)
  : P (option (Session * Cluster)) :=
  cluster ← new_cluster host port;
  attempt
    (session ← cluster_connect cluster;
     note (ConnectedTo host port);;
     mret (Some (session, cluster)))
    (λ e, note (ConnectFailed e);;
          cluster_shutdown cluster;;
          mret None).

Definition close_connection (cluster : option Cluster) : P unit :=
  match cluster with
  | None => mret tt
  | Some c =>
      attempt (cluster_shutdown c;; note ConnectionClosed)
              (λ e, note (CloseFailed e))
  end.

Definition get_session (host : string) (port : Z) (keyspace_name : string)
    (replication_factor : Z) : P (option (Session * Cluster)) :=
  connection ← create_connection host port;
  match connection with
  | None => mret None
  | Some (session, cluster) =>
      keyspace_created ←
        lift (create_keyspace_if_not_exists (Some session) keyspace_name
                replication_factor);
      if negb keyspace_created
      then
        note KeyspaceSetupFailed;;
        cluster_shutdown cluster;;
        mret None
      else
        attempt
          (session_set_keyspace session keyspace_name;;
           note (UsingKeyspace keyspace_name);;
           mret (Some (session, cluster)))
          (λ e, note (SetKeyspaceFailed keyspace_name e);;
                cluster_shutdown cluster;;
                mret None)
  end.

Definition setup_schema (host : string) (port : Z)
    (keyspace_name table_name : string) : P (option (Session * Cluster)) :=
  connection ← get_session host port keyspace_name default_replication_factor;
  match connection with
  | None => mret None
  | Some (session, cluster) =>
      table_created ← lift (create_table (Some session) keyspace_name table_name);
      if negb table_created
      then
        note SchemaSetupFailed;;
        close_connection (Some cluster);;
        mret None
      else mret (Some (session, cluster))
  end.

(** ** The menu of query_analysis *)

(** [for x in l: body x] in the connection layer. *)
Fixpoint each {A} (l : list A) (body : A → P unit) : P unit :=
  match l with
  | [] => mret tt
  | x :: l' => body x;; each l' body
  end.

(** [enumerate(l, start)]. *)
Definition enumerate {A} (l : list A) (start : nat) : list (nat * A) :=
  zip (seq start (length l)) l.

Section menu.
(** Python's [str.strip], [str.lower] and [int] on a string. *)
Variable strip : string → string.
Variable lower : string → string.
Variable int_of_str : string → option Z.

Definition display_averages (session : option Session) : P unit :=
  note AveragesBanner;;
  device_id ← lift (strip <$> input);
  if decide (device_id = EmptyString)
  then lift (print DeviceIdEmpty)
  else
    note SensorTypesAvailable;;
    sensor_type ← lift ((λ s, lower (strip s)) <$> input);
    if decide (sensor_type = EmptyString)
    then note SensorTypeEmpty
    else
      note (Calculating sensor_type device_id);;
      average ← lift (get_average_value session device_id sensor_type
                        default_keyspace default_table);
      match average with
      | Some a =>
          note (AverageShown device_id sensor_type a
                  (if decide (sensor_type = "temperature") then Celsius
                   else if decide (sensor_type = "humidity") then Percent
                   else Plain))
      | None => note NoAverageData
      end.

Definition display_all_devices (session : option Session) : P unit :=
  note DevicesBanner;;
  note FetchingDevices;;
  devices ← lift (get_all_devices session default_keyspace default_table);
  match devices with
  | _ :: _ =>
      note (DevicesFound (length devices));;
      each (enumerate devices 1)
           (λ '(i, device_id), note (DeviceLine i device_id));;
      note DevicesRule
  | [] => note NoDevicesFound
  end.

Definition show_menu : P unit := note MenuShown.

(** One turn of the loop of [run_cli]: [true] to go round again, [false]
    on [break].  A Ctrl+C is not among the events of the model. *)
Definition menu_turn (session : Session) : P bool :=
  show_menu;;
  attempt
    (choice ← lift (strip <$> input);
     if decide (choice = "1")
     then lift (display_recent_readings strip int_of_str (Some session));;
          mret true
     else if decide (choice = "2")
     then display_averages (Some session);; mret true
     else if decide (choice = "3")
     then display_all_devices (Some session);; mret true
     else if decide (choice = "4")
     then note Exiting;; mret false
     else note InvalidOption;; mret true)
    (λ e, note (MenuError e);; mret true).

(** The [while True] loop, for at most [fuel] turns: [true] when the loop
    was left by [break], [false] when the turns are used up. *)
Fixpoint menu_loop (fuel : nat) (session : Session) : P bool :=
  match fuel with
  | O => mret false
  | S fuel' =>
      again ← menu_turn session;
      if again : bool then menu_loop fuel' session else mret true
  end.

(** [run_cli] with at most [fuel] turns of its loop: [true] when it
    returned. *)
Definition run_cli (fuel : nat) : P bool :=
  note CliBanner;;
  note Connecting;;
  connection ← get_session default_host default_port default_keyspace
                 default_replication_factor;
  match connection with
  | None => note CliConnectFailed;; mret true
  | Some (session, cluster) =>
      note CliConnected;;
      left ← menu_loop fuel session;
      if left : bool
      then close_connection (Some cluster);; mret true
      else mret false
  end.
End menu.

(** From world [w] to world [w'] the database is as it was, the requests
    that went out only read, and what is left of the input is an end of
    what there was. *)
Definition untouched (w w' : world) : Prop :=
  db w' = db w ∧
  (∃ sent, wire w' = wire w ++ sent ∧ forallb read_only sent = true) ∧
  stdin w' `suffix_of` stdin w.

(** A computation of the modules, and one of the connection layer, that
    writes nothing however it ends; the latter opens and shuts no cluster
    either. *)
Definition harmless {A} (m : M A) : Prop := ∀ w, untouched w (m w).2.

Definition calm {A} (p : P A) : Prop :=
  ∀ r, untouched (ground r) (ground (p r).2) ∧
       next_cluster (p r).2 = next_cluster r ∧
       open_clusters (p r).2 = open_clusters r.

(** The clusters that are open were all handed out before. *)
Definition tidy (r : process) : bool :=
  bool_decide (set_Forall (λ i, (i < next_cluster r)%nat) (open_clusters r)).

(** A process that has opened nothing yet. *)
Definition start (w : world) : process := Process w 0 ∅ [].

(** Unfolds the plumbing of the connection layer. *)
Ltac process_unfold :=
  unfold close_connection, cluster_connect, session_set_keyspace;
  unfold attempt, note, lift, mark_open, cluster_shutdown, new_cluster,
    round_trip, keyspace_known, mbind, P_bind, M_bind, mret, P_ret, M_ret.


(** Unfolds the plumbing of the computations. *)
Ltac monad_unfold :=
  unfold try_except, raise, print, session_execute_prepared, session_execute,
    session_prepare, store_prepare, store_run, bind_parameters, send,
    mbind, M_bind, mret, M_ret, fmap, M_fmap.

(** * Properties *)

(** ** The clustering order *)

#[global] Instance newer_first_total : Total newer_first.
Proof. intros r1 r2. unfold newer_first. lia. Qed.

#[global] Instance newer_first_trans : Transitive newer_first.
Proof. intros r1 r2 r3. unfold newer_first. lia. Qed.

Lemma StronglySorted_take {A} (R : relation A) (n : nat) (l : list A) :
  StronglySorted R l → StronglySorted R (take n l).
Proof.
  intros Hl. revert n. induction Hl as [|x l Hl IH Hx]; intros [|n]; simpl;
    try constructor; auto.
  apply Forall_take. exact Hx.
Qed.

Section table.
Context (t : gmap (string * Z) (string * Q)).

Lemma elem_of_table_rows (r : reading) :
  r ∈ table_rows t ↔
  t !! (device_id r, timestamp r) = Some (sensor_type r, sensor_value r).
Proof.
  unfold table_rows. rewrite list_elem_of_fmap. split.
  - intros [[[d ts] [ty v]] [-> Hin]]. by apply elem_of_map_to_list in Hin.
  - intros Hr.
    exists ((device_id r, timestamp r), (sensor_type r, sensor_value r)).
    split; [by destruct r | by apply elem_of_map_to_list].
Qed.

Lemma table_rows_key_inj (r1 r2 : reading) :
  r1 ∈ table_rows t → r2 ∈ table_rows t →
  device_id r1 = device_id r2 → timestamp r1 = timestamp r2 → r1 = r2.
Proof.
  rewrite !elem_of_table_rows. intros H1 H2 Hd Hts.
  rewrite Hd, Hts, H2 in H1. destruct r1, r2; simpl in *. congruence.
Qed.

Lemma NoDup_table_rows : NoDup (table_rows t).
Proof.
  unfold table_rows. apply NoDup_fmap_2; [|apply NoDup_map_to_list].
  intros [[d1 t1] [y1 v1]] [[d2 t2] [y2 v2]]. unfold row_of. simpl. congruence.
Qed.

Lemma partition_rows_perm (dev : string) :
  partition_rows t dev ≡ₚ filter (λ r, device_id r = dev) (table_rows t).
Proof. apply merge_sort_Permutation. Qed.

Lemma elem_of_partition_rows (dev : string) (r : reading) :
  r ∈ partition_rows t dev ↔ device_id r = dev ∧ r ∈ table_rows t.
Proof. by rewrite partition_rows_perm, list_elem_of_filter. Qed.

Lemma partition_rows_sorted (dev : string) :
  StronglySorted newer_first (partition_rows t dev).
Proof. apply StronglySorted_merge_sort; apply _. Qed.

Lemma partition_rows_NoDup (dev : string) :
  NoDup (timestamp <$> partition_rows t dev).
Proof.
  apply NoDup_fmap_2_strong.
  - intros r1 r2 [Hd1 H1]%elem_of_partition_rows [Hd2 H2]%elem_of_partition_rows.
    apply table_rows_key_inj; congruence.
  - rewrite partition_rows_perm. apply NoDup_filter, NoDup_table_rows.
Qed.

Lemma elem_of_partition_keys (dev : string) :
  dev ∈ partition_keys t ↔ ∃ r, r ∈ table_rows t ∧ device_id r = dev.
Proof.
  unfold partition_keys. rewrite elem_of_elements.
  rewrite (elem_of_map (C := gset (string * Z)) (D := gset string)). split.
  - intros [[d ts] [-> [[ty v] Hk]%elem_of_dom]].
    exists (Reading d ts ty v). split; [by apply elem_of_table_rows|done].
  - intros [r [Hr <-]]. exists (device_id r, timestamp r). split; [done|].
    apply elem_of_dom. eexists. by apply elem_of_table_rows.
Qed.

Lemma NoDup_partition_keys : NoDup (partition_keys t).
Proof. unfold partition_keys. apply NoDup_elements. Qed.
End table.



(** ** Running the driver *)

Lemma available_S (n : nat) (w : world) :
  available (S n) w = true →
  outage (hd default_event (net w)) = false ∧
  ∀ r, available n (transmit r w) = true.
Proof.
  unfold available, transmit. simpl. destruct (net w) as [|ev evs]; simpl.
  - intros _. split; [done|]. intros _. by rewrite take_nil.
  - intros [Hev Hrest]%andb_true_iff. split; [|done].
    by apply negb_true_iff.
Qed.

Lemma available_set_db (n : nat) (d : database) (w : world) :
  available n (set_db d w) = available n w.
Proof. done. Qed.

Lemma available_say (n : nat) (m : message) (w : world) :
  available n (say m w) = available n w.
Proof. done. Qed.

Lemma set_db_same (w : world) : set_db (db w) w = w.
Proof. by destruct w. Qed.

(** What [get_recent_readings] returns when the store answers. *)
Lemma get_recent_readings_answered (w : world) (s : Session)
    (dev : string) (limit : Z) (ks tbl : string)
    (t : gmap (string * Z) (string * Q)) :
  tables (db w) !! (ks, tbl) = Some t → available 2 w = true → 0 < limit →
  ∃ w', get_recent_readings (Some s) dev limit ks tbl w =
          (Ok (Frame reading_columns
                 (take (Z.to_nat limit) (partition_rows t dev))), w') ∧
        db w' = db w.
Proof.
  intros Ht Hav Hl.
  apply available_S in Hav as [Ho1 Hav].
  specialize (Hav (Prepare (RecentT ks tbl))).
  apply available_S in Hav as [Ho2 _].
  unfold get_recent_readings. monad_unfold. simpl in *.
  rewrite Ho1. simpl. rewrite Ht. simpl. rewrite Ho2. simpl. rewrite Ht.
  rewrite decide_True by done. simpl.
  destruct (take (Z.to_nat limit) (partition_rows t dev)); eauto.
Qed.

(** Whatever happens, [get_recent_readings] returns a frame: the empty one,
    or the first rows of the partition. *)
Lemma get_recent_readings_returns (w : world) (session : option Session)
    (dev : string) (limit : Z) (ks tbl : string) :
  ∃ df w', get_recent_readings session dev limit ks tbl w = (Ok df, w') ∧
    (df = empty_frame ∨
     ∃ t, tables (db w) !! (ks, tbl) = Some t ∧ 0 < limit ∧
          df = Frame reading_columns
                 (take (Z.to_nat limit) (partition_rows t dev))).
Proof.
  unfold get_recent_readings. destruct session as [s|]; monad_unfold; simpl.
  2: { eauto. }
  destruct (outage (hd default_event (net w))); simpl; [eauto|].
  destruct (tables (db w) !! (ks, tbl)) as [t|] eqn:Ht; simpl; [|eauto].
  match goal with |- context [outage ?e] => destruct (outage e) end;
    simpl; [eauto|].
  rewrite Ht. destruct (decide (0 < limit)); simpl; [|eauto].
  destruct (take (Z.to_nat limit) (partition_rows t dev)) eqn:Hrows;
    do 2 eexists; (split; [reflexivity|]); right; exists t; rewrite ?Hrows; done.
Qed.

(** What a successful insert did to the world. *)
Lemma insert_sensor_reading_true (w w1 : world) (session : option Session)
    (p : option prepared) (dev : string) (ts : Z) (ty : string) (v : Q) :
  insert_sensor_reading session p dev ts ty v w = (Ok true, w1) →
  ∃ s ks tbl t,
    session = Some s ∧ p = Some (Prepared (InsertT ks tbl)) ∧
    tables (db w) !! (ks, tbl) = Some t ∧
    tables (db w1) !! (ks, tbl) = Some (upsert (Reading dev ts ty v) t) ∧
    net w1 = tl (net w).
Proof.
  unfold insert_sensor_reading.
  destruct session as [s|], p as [[q]|]; monad_unfold; simpl; try congruence.
  destruct q as [ks tbl| |]; simpl; try congruence.
  destruct (outage (hd default_event (net w))); simpl; [congruence|].
  destruct (tables (db w) !! (ks, tbl)) as [t|] eqn:Ht; simpl; [|congruence].
  intros [= <-]. exists s, ks, tbl, t. simpl.
  by rewrite lookup_insert_eq.
Qed.

Lemma stored_readings_perm (w : world) (ks tbl dev : string)
    (t : gmap (string * Z) (string * Q)) :
  tables (db w) !! (ks, tbl) = Some t →
  partition_rows t dev ≡ₚ stored_readings w ks tbl dev.
Proof. intros Ht. unfold stored_readings. rewrite Ht. apply partition_rows_perm. Qed.

(** ** The reader *)

(** C1: for every device and every positive limit, [get_recent_readings]
    returns a frame (it never raises) of at most [limit] rows whose
    timestamps never increase from one row to the next, and the frame has
    no rows when the store holds no reading of the device. *)
Theorem recent_readings_bounded_and_ordered (w : world)
    (session : option Session) (dev : string) (limit : Z) (ks tbl : string) :
  0 < limit →
  ∃ df w', get_recent_readings session dev limit ks tbl w = (Ok df, w') ∧
    Z.of_nat (length (records df)) ≤ limit ∧
    StronglySorted newer_first (records df) ∧
    (stored_readings w ks tbl dev = [] → records df = []).
Proof.
  intros Hlimit.
  destruct (get_recent_readings_returns w session dev limit ks tbl)
    as (df & w' & Hrun & [-> | (t & Ht & _ & ->)]);
    eexists _, w'; (split; [exact Hrun|]); simpl.
  - repeat split; [lia|constructor].
  - repeat split.
    + rewrite length_take. lia.
    + apply StronglySorted_take, partition_rows_sorted.
    + intros Hnone.
      pose proof (stored_readings_perm w ks tbl dev t Ht) as Hperm.
      rewrite Hnone in Hperm. apply Permutation_nil_r in Hperm.
      by rewrite Hperm, take_nil.
Qed.

Lemma recent_readings_bounded_and_ordered_witness :
  0 < 5 ∧
  ∃ df w', get_recent_readings live "device_1" 5 default_keyspace
             default_table fresh_world = (Ok df, w') ∧
    Z.of_nat (length (records df)) ≤ 5 ∧
    StronglySorted newer_first (records df) ∧
    (stored_readings fresh_world default_keyspace default_table "device_1" = []
     → records df = []).
Proof.
  split; [lia|]. apply recent_readings_bounded_and_ordered. lia.
Defined.



(** ** Rounding *)

Section rounding.
Local Open Scope Q_scope.





Lemma round_half_even_comp (x y : Q) :
  x == y → round_half_even x = round_half_even y.
Proof.
  intros Hxy. unfold round_half_even.
  rewrite (Qfloor_comp x y Hxy).
  assert (x - inject_Z (Qfloor y) == y - inject_Z (Qfloor y)) as -> by lra.
  done.
Qed.

Lemma round2_comp (x y : Q) : x == y → round2 x = round2 y.
Proof.
  intros Hxy. unfold round2. rewrite (round_half_even_comp (x * 100) (y * 100)).
  - done.
  - by rewrite Hxy.
Qed.





Lemma Qsum_perm (l1 l2 : list Q) : l1 ≡ₚ l2 → Qsum l1 == Qsum l2.
Proof.
  induction 1 as [|x l1 l2 _ IH|x y l|l1 l2 l3 _ IH1 _ IH2]; simpl.
  - reflexivity.
  - by rewrite IH.
  - lra.
  - by rewrite IH1.
Qed.

Lemma mean_perm (l1 l2 : list Q) : l1 ≡ₚ l2 → mean l1 == mean l2.
Proof.
  intros Hp. unfold mean.
  by rewrite (Qsum_perm l1 l2 Hp), (Permutation_length Hp).
Qed.
End rounding.

(** ** The average *)

Lemma stored_values_perm (w : world) (ks tbl dev ty : string)
    (t : gmap (string * Z) (string * Q)) :
  tables (db w) !! (ks, tbl) = Some t →
  sensor_value <$> filter (λ r, sensor_type r = ty) (partition_rows t dev)
    ≡ₚ stored_values w ks tbl dev ty.
Proof.
  intros Ht. unfold stored_values.
  by rewrite (stored_readings_perm w ks tbl dev t Ht).
Qed.

Lemma available_2_intro (w : world) :
  outage (hd default_event (net w)) = false →
  outage (hd default_event (tl (net w))) = false →
  available 2 w = true.
Proof.
  unfold available. destruct (net w) as [|e1 [|e2 evs]]; simpl; try done.
  - by intros ->.
  - by intros -> ->.
Qed.

(** Whatever happens, [get_average_value] returns: no value, or the
    rounded mean of the values that the store sent. *)
Lemma get_average_value_returns (w : world) (session : option Session)
    (dev ty ks tbl : string) :
  ∃ o w', get_average_value session dev ty ks tbl w = (Ok o, w') ∧
    (o = None ∨
     ∃ s t, session = Some s ∧ tables (db w) !! (ks, tbl) = Some t ∧
       available 2 w = true ∧
       stored_values w ks tbl dev ty ≠ [] ∧
       o = Some (round2 (mean (stored_values w ks tbl dev ty)))).
Proof.
  unfold get_average_value. destruct session as [s|]; monad_unfold; simpl.
  2: { eauto. }
  destruct (outage (hd default_event (net w))) eqn:Ho1; simpl; [eauto|].
  destruct (tables (db w) !! (ks, tbl)) as [t|] eqn:Ht; simpl; [|eauto].
  destruct (outage (hd default_event (tl (net w)))) eqn:Ho2; simpl; [eauto|].
  rewrite Ht.
  pose proof (stored_values_perm w ks tbl dev ty t Ht) as Hperm.
  destruct (sensor_value <$> filter _ (partition_rows t dev))
    as [|v vs] eqn:Hvs; [by eauto|].
  do 2 eexists. split; [reflexivity|]. right. exists s, t.
  repeat split; try done.
  - by apply available_2_intro.
  - intros Hnil. rewrite Hnil in Hperm. by apply Permutation_nil_r in Hperm.
  - f_equal. apply round2_comp, mean_perm, Hperm.
Qed.




(** ** The device catalog *)

Lemma sorted_perm (l : list string) : sorted l ≡ₚ l.
Proof. apply merge_sort_Permutation. Qed.

Lemma sorted_ascending (l : list string) : StronglySorted String.le (sorted l).
Proof. apply StronglySorted_merge_sort; apply _. Qed.

(** What [get_all_devices] returns when the store answers. *)
Lemma get_all_devices_answered (w : world) (s : Session) (ks tbl : string)
    (t : gmap (string * Z) (string * Q)) :
  tables (db w) !! (ks, tbl) = Some t → available 1 w = true →
  ∃ w', get_all_devices (Some s) ks tbl w = (Ok (sorted (partition_keys t)), w').
Proof.
  intros Ht [Ho _]%available_S.
  unfold get_all_devices. monad_unfold. simpl.
  rewrite Ho. simpl. rewrite Ht. simpl. eauto.
Qed.

(** C5: when the store answers, [get_all_devices] returns the device ids
    that occur among the stored readings, each once, in ascending order;
    nothing for a table without readings; and device_1, device_2, device_3
    for a store that was given readings of device_3, device_1, device_2. *)
Theorem all_devices_sorted_distinct :
  (∀ (w : world) (s : Session) (ks tbl : string)
     (t : gmap (string * Z) (string * Q)),
     tables (db w) !! (ks, tbl) = Some t →
     available 1 w = true →
     ∃ l w', get_all_devices (Some s) ks tbl w = (Ok l, w') ∧
       StronglySorted String.le l ∧
       NoDup l ∧
       (∀ dev, dev ∈ l ↔ ∃ r, r ∈ table_rows t ∧ device_id r = dev) ∧
       (t = ∅ → l = [])) ∧
  fst (scenario_devices fresh_world) = Ok ["device_1"; "device_2"; "device_3"] ∧
  fst (get_all_devices live default_keyspace default_table fresh_world) = Ok [].
Proof.
  split; [|split; by vm_compute].
  intros w s ks tbl t Ht Hav.
  destruct (get_all_devices_answered w s ks tbl t Ht Hav) as [w' Hrun].
  eexists _, w'. split; [exact Hrun|].
  assert (Hmem : ∀ dev, dev ∈ sorted (partition_keys t) ↔
                        ∃ r, r ∈ table_rows t ∧ device_id r = dev).
  { intros dev. by rewrite sorted_perm, elem_of_partition_keys. }
  repeat split.
  - apply sorted_ascending.
  - rewrite sorted_perm. apply NoDup_partition_keys.
  - by apply Hmem.
  - by apply Hmem.
  - intros ->. apply elem_of_nil_inv. intros dev [r [Hr _]]%Hmem.
    unfold table_rows in Hr. rewrite map_to_list_empty in Hr.
    by apply elem_of_nil in Hr.
Qed.

Lemma all_devices_sorted_distinct_witness :
  ∃ l w', get_all_devices (Some Connected) default_keyspace default_table
            fresh_world = (Ok l, w') ∧
    StronglySorted String.le l ∧
    NoDup l ∧
    (∀ dev, dev ∈ l ↔ ∃ r, r ∈ table_rows ∅ ∧ device_id r = dev) ∧
    ((∅ : gmap (string * Z) (string * Q)) = ∅ → l = []).
Proof.
  apply (proj1 all_devices_sorted_distinct fresh_world Connected
           default_keyspace default_table ∅).
  - vm_compute. reflexivity.
  - vm_compute. reflexivity.
Defined.

(** ** Limits that are not positive *)

(** C4, as stated, fails: with limit 0 [get_recent_readings] raises
    nothing and returns the empty frame. *)
Lemma nonpositive_limit_does_not_raise :
  fst (get_recent_readings live "device_1" 0 default_keyspace default_table
         fresh_world) = Ok empty_frame ∧
  ¬ ∃ e, fst (get_recent_readings live "device_1" 0 default_keyspace
                default_table fresh_world) = Raise e.
Proof. split; [by vm_compute|]. intros [e He]. vm_compute in He. discriminate. Qed.

(** C4, amended: for a limit of 0 or below [get_recent_readings] raises no
    error and returns the empty frame, whatever the session and the store;
    it is the caller [display_recent_readings] that turns such a limit
    down, with a message and before any request is sent. *)
Theorem nonpositive_limit_is_swallowed :
  (∀ (w : world) (session : option Session) (dev : string) (limit : Z)
     (ks tbl : string),
     limit ≤ 0 →
     ∃ w', get_recent_readings session dev limit ks tbl w
           = (Ok empty_frame, w')) ∧
  (∀ (strip : string → string) (int_of_str : string → option Z) (w : world)
     (session : option Session) (line1 line2 : string) (rest : list string)
     (n : Z),
     stdin w = line1 :: line2 :: rest →
     strip line1 ≠ EmptyString →
     strip line2 ≠ EmptyString →
     int_of_str (strip line2) = Some n →
     n ≤ 0 →
     ∃ w', display_recent_readings strip int_of_str session w = (Ok tt, w') ∧
       stdout w' = stdout w ++ [RecentBanner; LimitNotPositive] ∧
       wire w' = wire w ∧
       db w' = db w).
Proof.
  split.
  - intros w session dev limit ks tbl Hlimit.
    destruct (get_recent_readings_returns w session dev limit ks tbl)
      as (df & w' & Hrun & [-> | (t & _ & Hpos & _)]); [eauto|lia].
  - intros strip int_of_str w session line1 line2 rest n Hin H1 H2 Hint Hn.
    unfold display_recent_readings, read_limit, input. monad_unfold. simpl.
    rewrite Hin. simpl. rewrite decide_False by done. simpl.
    rewrite decide_False by done. rewrite Hint. simpl.
    rewrite decide_True by done. simpl.
    eexists. split; [reflexivity|]. simpl.
    by rewrite <- app_assoc.
Qed.

Lemma nonpositive_limit_is_swallowed_witness :
  (∃ w', get_recent_readings live "device_1" 0 default_keyspace default_table
           fresh_world = (Ok empty_frame, w')) ∧
  (∃ w', display_recent_readings id decimal_int live
           (World fresh_db [] 0 [] ["device_1"; "-5"] [] []) = (Ok tt, w') ∧
     stdout w' = [] ++ [RecentBanner; LimitNotPositive] ∧
     wire w' = [] ∧
     db w' = fresh_db).
Proof.
  split.
  - apply (proj1 nonpositive_limit_is_swallowed). lia.
  - apply (proj2 nonpositive_limit_is_swallowed id decimal_int
             (World fresh_db [] 0 [] ["device_1"; "-5"] [] []) live
             "device_1" "-5" [] (-5)).
    + reflexivity.
    + discriminate.
    + discriminate.
    + vm_compute. reflexivity.
    + lia.
Defined.

(** ** Reads that fail *)

Lemma unavailable_2 (w : world) :
  available 2 w = false →
  outage (hd default_event (net w)) = true ∨
  outage (hd default_event (tl (net w))) = true.
Proof.
  intros Hav.
  destruct (outage (hd default_event (net w))) eqn:Ho1; [by left|].
  destruct (outage (hd default_event (tl (net w)))) eqn:Ho2; [by right|].
  by rewrite available_2_intro in Hav.
Qed.

Lemma unavailable_1 (w : world) :
  available 1 w = false → outage (hd default_event (net w)) = true.
Proof.
  unfold available. destruct (net w) as [|e evs]; simpl; [done|].
  rewrite ?take_0. simpl. rewrite andb_true_r. by intros ->%negb_false_iff.
Qed.

Lemma get_recent_readings_failed (w : world) (s : Session) (dev : string)
    (limit : Z) (ks tbl : string) :
  read_fails 2 w ks tbl →
  ∃ w', get_recent_readings (Some s) dev limit ks tbl w = (Ok empty_frame, w').
Proof.
  intros Hfail. unfold get_recent_readings. monad_unfold. simpl.
  destruct (outage (hd default_event (net w))) eqn:Ho1; simpl; [eauto|].
  destruct (tables (db w) !! (ks, tbl)) as [t|] eqn:Ht; simpl; [|eauto].
  destruct Hfail as [[Ho|Ho]%unavailable_2|Hnone]; [congruence| |congruence].
  rewrite Ho. simpl. eauto.
Qed.

Lemma get_average_value_failed (w : world) (s : Session)
    (dev ty ks tbl : string) :
  read_fails 2 w ks tbl →
  ∃ w', get_average_value (Some s) dev ty ks tbl w = (Ok None, w').
Proof.
  intros Hfail.
  destruct (get_average_value_returns w (Some s) dev ty ks tbl)
    as (o & w' & Hrun & [-> | (s' & t & _ & Ht & Hav & _)]); [eauto|].
  destruct Hfail; congruence.
Qed.

Lemma get_all_devices_failed (w : world) (s : Session) (ks tbl : string) :
  read_fails 1 w ks tbl →
  ∃ w', get_all_devices (Some s) ks tbl w = (Ok [], w').
Proof.
  intros Hfail. unfold get_all_devices. monad_unfold. simpl.
  destruct (outage (hd default_event (net w))) eqn:Ho1; simpl; [eauto|].
  destruct (tables (db w) !! (ks, tbl)) as [t|] eqn:Ht; simpl; [|eauto].
  destruct Hfail as [Ho%unavailable_1|Hnone]; congruence.
Qed.

(** C6, as stated, fails: behind a network that drops the request, and
    on the same store behind a network that works, [get_average_value] and
    [get_all_devices] hand the same value to their caller; only the console
    tells the failed read from the read that found nothing. *)
Lemma failed_read_looks_like_no_data :
  fst (get_average_value live "device_1" "temperature" default_keyspace
         default_table unreachable_world)
  = fst (get_average_value live "device_1" "temperature" default_keyspace
           default_table fresh_world) ∧
  fst (get_all_devices live default_keyspace default_table unreachable_world)
  = fst (get_all_devices live default_keyspace default_table fresh_world) ∧
  stdout (snd (get_all_devices live default_keyspace default_table
                 unreachable_world)) = [DevicesError NoHostAvailable] ∧
  stdout (snd (get_all_devices live default_keyspace default_table
                 fresh_world)) = [].
Proof. repeat split; by vm_compute. Qed.

(** C6, amended: when the query of a read fails, no error reaches the
    caller; [get_recent_readings] returns the empty frame,
    [get_average_value] no value and [get_all_devices] the empty list.  A
    read that succeeds and finds nothing returns that very value from
    [get_average_value] and from [get_all_devices], and from
    [get_recent_readings] a frame without rows under the four column
    labels. *)
Theorem failed_read_returns_empty :
  (∀ (w : world) (s : Session) (dev ty : string) (limit : Z) (ks tbl : string),
     read_fails 2 w ks tbl →
     (∃ w', get_recent_readings (Some s) dev limit ks tbl w
            = (Ok empty_frame, w')) ∧
     (∃ w', get_average_value (Some s) dev ty ks tbl w = (Ok None, w'))) ∧
  (∀ (w : world) (s : Session) (ks tbl : string),
     read_fails 1 w ks tbl →
     ∃ w', get_all_devices (Some s) ks tbl w = (Ok [], w')) ∧
  (∀ (w : world) (s : Session) (dev ty : string) (limit : Z) (ks tbl : string),
     is_Some (tables (db w) !! (ks, tbl)) →
     available 2 w = true →
     0 < limit →
     stored_readings w ks tbl dev = [] →
     (∃ w', get_recent_readings (Some s) dev limit ks tbl w
            = (Ok (Frame reading_columns []), w')) ∧
     (∃ w', get_average_value (Some s) dev ty ks tbl w = (Ok None, w'))) ∧
  (∀ (w : world) (s : Session) (ks tbl : string),
     tables (db w) !! (ks, tbl) = Some ∅ →
     available 1 w = true →
     ∃ w', get_all_devices (Some s) ks tbl w = (Ok [], w')).
Proof.
  split; [|split; [|split]].
  - intros w s dev ty limit ks tbl Hfail. split.
    + by apply get_recent_readings_failed.
    + by apply get_average_value_failed.
  - intros w s ks tbl. apply get_all_devices_failed.
  - intros w s dev ty limit ks tbl [t Ht] Hav Hlimit Hnone. split.
    + destruct (get_recent_readings_answered w s dev limit ks tbl t Ht)
        as (w' & Hrun & _); [done..|].
      exists w'. rewrite Hrun. do 3 f_equal.
      pose proof (stored_readings_perm w ks tbl dev t Ht) as Hperm.
      rewrite Hnone in Hperm. apply Permutation_nil_r in Hperm.
      by rewrite Hperm, take_nil.
    + destruct (get_average_value_returns w (Some s) dev ty ks tbl)
        as (o & w' & Hrun & [-> | (s' & t' & _ & _ & _ & Hsome & _)]); [eauto|].
      unfold stored_values in Hsome. by rewrite Hnone in Hsome.
  - intros w s ks tbl Ht Hav.
    destruct (get_all_devices_answered w s ks tbl ∅ Ht Hav) as [w' Hrun].
    exists w'. by rewrite Hrun.
Qed.

Lemma failed_read_returns_empty_witness :
  (∃ w', get_recent_readings (Some Connected) "device_1" 5 default_keyspace
           default_table unreachable_world = (Ok empty_frame, w')) ∧
  (∃ w', get_average_value (Some Connected) "device_1" "temperature"
           default_keyspace default_table unreachable_world = (Ok None, w')) ∧
  (∃ w', get_all_devices (Some Connected) default_keyspace default_table
           unreachable_world = (Ok [], w')) ∧
  (∃ w', get_all_devices (Some Connected) default_keyspace default_table
           fresh_world = (Ok [], w')).
Proof.
  assert (Hdown2 : read_fails 2 unreachable_world default_keyspace default_table)
    by (left; reflexivity).
  assert (Hdown1 : read_fails 1 unreachable_world default_keyspace default_table)
    by (left; reflexivity).
  destruct failed_read_returns_empty as (Hfail2 & Hfail1 & _ & Hnone).
  repeat split.
  - apply (Hfail2 unreachable_world Connected "device_1" "temperature" 5
             default_keyspace default_table Hdown2).
  - apply (Hfail2 unreachable_world Connected "device_1" "temperature" 5
             default_keyspace default_table Hdown2).
  - apply (Hfail1 unreachable_world Connected default_keyspace default_table
             Hdown1).
  - apply (Hnone fresh_world Connected default_keyspace default_table);
      vm_compute; reflexivity.
Defined.

(** ** The schema manager *)

(** The second look at a keyspace that is there: one SELECT, no CREATE. *)
Lemma create_keyspace_existing (w : world) (s : Session) (ks : string)
    (rf : Z) :
  is_Some (keyspaces (db w) !! ks) → available 1 w = true →
  ∃ w', create_keyspace_if_not_exists (Some s) ks rf w = (Ok true, w') ∧
    db w' = db w ∧
    wire w' = wire w ++ [Execute (SelectKeyspace ks)].
Proof.
  intros [rf0 Hks] [Ho _]%available_S.
  unfold create_keyspace_if_not_exists. monad_unfold. simpl.
  rewrite Ho. simpl. rewrite Hks. simpl.
  eexists. split; [reflexivity|]. simpl. split; [|done]. by destruct (db w).
Qed.

Lemma create_keyspace_absent (w : world) (s : Session) (ks : string)
    (rf : Z) :
  keyspaces (db w) !! ks = None → available 2 w = true →
  ∃ w', create_keyspace_if_not_exists (Some s) ks rf w
        = (Ok (accepts_replication (db w) rf), w').
Proof.
  intros Hks Hav.
  apply available_S in Hav as [Ho1 Hav].
  specialize (Hav (Execute (SelectKeyspace ks))).
  apply available_S in Hav as [Ho2 _].
  unfold create_keyspace_if_not_exists. monad_unfold. simpl in *.
  rewrite Ho1. simpl. rewrite Hks. simpl. rewrite Ho2. simpl. rewrite Hks.
  destruct (accepts_replication (db w) rf); simpl; eauto.
Qed.

Lemma create_keyspace_returns (w : world) (session : option Session)
    (ks : string) (rf : Z) :
  ∃ b w', create_keyspace_if_not_exists session ks rf w = (Ok b, w').
Proof.
  unfold create_keyspace_if_not_exists.
  destruct session as [s|]; monad_unfold; simpl; [|eauto].
  destruct (outage (hd default_event (net w))); simpl; [eauto|].
  destruct (keyspaces (db w) !! ks) eqn:Hks; simpl; [eauto|].
  destruct (outage (hd default_event (tl (net w)))); simpl; [eauto|].
  rewrite Hks. destruct (accepts_replication (db w) rf); simpl; eauto.
Qed.

(** After a call that returned [True] the keyspace is there. *)
Lemma create_keyspace_true (w w1 : world) (session : option Session)
    (ks : string) (rf : Z) :
  create_keyspace_if_not_exists session ks rf w = (Ok true, w1) →
  ∃ s, session = Some s ∧ is_Some (keyspaces (db w1) !! ks).
Proof.
  unfold create_keyspace_if_not_exists.
  destruct session as [s|]; monad_unfold; simpl; [|congruence].
  destruct (outage (hd default_event (net w))); simpl; [congruence|].
  destruct (keyspaces (db w) !! ks) eqn:Hks; simpl.
  { intros [= <-]. exists s. simpl. rewrite Hks. eauto. }
  destruct (outage (hd default_event (tl (net w)))); simpl; [congruence|].
  rewrite Hks. destruct (accepts_replication (db w) rf); simpl; [|congruence].
  intros [= <-]. exists s. simpl. rewrite lookup_insert_eq. eauto.
Qed.

Lemma create_table_existing (w : world) (s : Session) (ks tbl : string) :
  is_Some (tables (db w) !! (ks, tbl)) → available 1 w = true →
  ∃ w', create_table (Some s) ks tbl w = (Ok true, w') ∧
    db w' = db w ∧
    wire w' = wire w ++ [Execute (SelectTable ks tbl)].
Proof.
  intros [t Ht] [Ho _]%available_S.
  unfold create_table, table_exists. monad_unfold. simpl.
  rewrite Ho. simpl. rewrite Ht. simpl.
  eexists. split; [reflexivity|]. simpl. split; [|done]. by destruct (db w).
Qed.

Lemma create_table_true (w w1 : world) (session : option Session)
    (ks tbl : string) :
  create_table session ks tbl w = (Ok true, w1) →
  ∃ s, session = Some s ∧ is_Some (tables (db w1) !! (ks, tbl)).
Proof.
  unfold create_table, table_exists.
  destruct session as [s|]; monad_unfold; simpl; [|congruence].
  destruct (outage (hd default_event (net w))); simpl.
  - destruct (outage (hd default_event (tl (net w)))); simpl; [congruence|].
    destruct (tables (db w) !! (ks, tbl)) eqn:Ht; simpl.
    { intros [= <-]. exists s. simpl. rewrite Ht. eauto. }
    destruct (keyspaces (db w) !! ks); simpl; [|congruence].
    intros [= <-]. exists s. simpl. rewrite lookup_insert_eq. eauto.
  - destruct (tables (db w) !! (ks, tbl)) eqn:Ht; simpl.
    { intros [= <-]. exists s. simpl. rewrite Ht. eauto. }
    destruct (outage (hd default_event (tl (net w)))); simpl; [congruence|].
    rewrite Ht. destruct (keyspaces (db w) !! ks); simpl; [|congruence].
    intros [= <-]. exists s. simpl. rewrite lookup_insert_eq. eauto.
Qed.

(** C7, as stated, fails: for a keyspace that exists the call reports
    success with replication factor 0, and with -1. *)
Lemma existing_keyspace_ignores_factor :
  fst (create_keyspace_if_not_exists live default_keyspace 0 fresh_world)
  = Ok true ∧
  fst (create_keyspace_if_not_exists live default_keyspace (-1) fresh_world)
  = Ok true.
Proof. split; by vm_compute. Qed.

(** C7, amended: [create_keyspace_if_not_exists] raises nothing and has
    no check of its own on the replication factor.  When the keyspace
    exists and the store answers it returns [True] for every factor, those
    below 1 included, after one SELECT and without a CREATE; when the
    keyspace is absent it returns [True] exactly for the factors that the
    store accepts. *)
Theorem keyspace_factor_is_left_to_store :
  (∀ (w : world) (session : option Session) (ks : string) (rf : Z),
     ∃ b w', create_keyspace_if_not_exists session ks rf w = (Ok b, w')) ∧
  (∀ (w : world) (s : Session) (ks : string) (rf : Z),
     is_Some (keyspaces (db w) !! ks) →
     available 1 w = true →
     ∃ w', create_keyspace_if_not_exists (Some s) ks rf w = (Ok true, w') ∧
       db w' = db w ∧
       wire w' = wire w ++ [Execute (SelectKeyspace ks)]) ∧
  (∀ (w : world) (s : Session) (ks : string) (rf : Z),
     keyspaces (db w) !! ks = None →
     available 2 w = true →
     ∃ w', create_keyspace_if_not_exists (Some s) ks rf w
           = (Ok (accepts_replication (db w) rf), w')).
Proof.
  split; [|split].
  - apply create_keyspace_returns.
  - apply create_keyspace_existing.
  - apply create_keyspace_absent.
Qed.

Lemma keyspace_factor_is_left_to_store_witness :
  (∃ w', create_keyspace_if_not_exists (Some Connected) default_keyspace 0
           fresh_world = (Ok true, w') ∧
     db w' = db fresh_world ∧
     wire w' = wire fresh_world ++ [Execute (SelectKeyspace default_keyspace)]) ∧
  (∃ w', create_keyspace_if_not_exists (Some Connected) "archive" (-1)
           fresh_world
         = (Ok (accepts_replication (db fresh_world) (-1)), w')).
Proof.
  split.
  - apply (proj1 (proj2 keyspace_factor_is_left_to_store)).
    + vm_compute. eauto.
    + reflexivity.
  - apply (proj2 (proj2 keyspace_factor_is_left_to_store)).
    + vm_compute. reflexivity.
    + reflexivity.
Defined.

(** C8: a second call of [create_keyspace_if_not_exists], or of
    [create_table], right after a first one that returned [True], returns
    [True] as well when the store answers its question, leaves the schema as
    it is and sends the existence SELECT only, no CREATE. *)
Theorem schema_setup_idempotent :
  (∀ (w w1 : world) (session : option Session) (ks : string) (rf : Z),
     create_keyspace_if_not_exists session ks rf w = (Ok true, w1) →
     available 1 w1 = true →
     ∃ w2, create_keyspace_if_not_exists session ks rf w1 = (Ok true, w2) ∧
       db w2 = db w1 ∧
       wire w2 = wire w1 ++ [Execute (SelectKeyspace ks)]) ∧
  (∀ (w w1 : world) (session : option Session) (ks tbl : string),
     create_table session ks tbl w = (Ok true, w1) →
     available 1 w1 = true →
     ∃ w2, create_table session ks tbl w1 = (Ok true, w2) ∧
       db w2 = db w1 ∧
       wire w2 = wire w1 ++ [Execute (SelectTable ks tbl)]).
Proof.
  split.
  - intros w w1 session ks rf [s [-> Hks]]%create_keyspace_true Hav.
    by apply create_keyspace_existing.
  - intros w w1 session ks tbl [s [-> Ht]]%create_table_true Hav.
    by apply create_table_existing.
Qed.

Lemma schema_setup_idempotent_witness :
  (let w1 := snd (create_keyspace_if_not_exists live default_keyspace 1
                    blank_world) in
   ∃ w2, create_keyspace_if_not_exists live default_keyspace 1 w1
         = (Ok true, w2) ∧
     db w2 = db w1 ∧
     wire w2 = wire w1 ++ [Execute (SelectKeyspace default_keyspace)]) ∧
  (let w1 := snd (create_table live default_keyspace default_table
                    (snd (create_keyspace_if_not_exists live default_keyspace 1
                            blank_world))) in
   ∃ w2, create_table live default_keyspace default_table w1 = (Ok true, w2) ∧
     db w2 = db w1 ∧
     wire w2 = wire w1 ++ [Execute (SelectTable default_keyspace default_table)]).
Proof.
  split.
  - apply (proj1 schema_setup_idempotent blank_world).
    + vm_compute. reflexivity.
    + vm_compute. reflexivity.
  - apply (proj2 schema_setup_idempotent
             (snd (create_keyspace_if_not_exists live default_keyspace 1
                     blank_world))).
    + vm_compute. reflexivity.
    + vm_compute. reflexivity.
Defined.

(** ** The generator *)

Section draws.
Local Open Scope Q_scope.

Lemma unit_draw_spec (u : Q) : unit_draw u = true ↔ 0 <= u ∧ u < 1.
Proof.
  unfold unit_draw. rewrite andb_true_iff, negb_true_iff, Qle_bool_iff.
  split; intros [H0 H1]; (split; [done|]).
  - apply Qnot_le_lt. intros Hle. apply Qle_bool_iff in Hle. congruence.
  - destruct (Qle_bool 1 u) eqn:Hle; [|done].
    apply Qle_bool_iff in Hle. lra.
Qed.

Lemma rng_ok_draws (w : world) :
  rng_ok w = true →
  (0 <= hd 0 (rng w) ∧ hd 0 (rng w) < 1) ∧
  (0 <= hd 0 (rng (drawn w)) ∧ hd 0 (rng (drawn w)) < 1).
Proof.
  unfold rng_ok, drawn. simpl. destruct (rng w) as [|u1 [|u2 us]]; simpl.
  - intros _. split; lra.
  - rewrite andb_true_r. intros ?%unit_draw_spec. split; [done|lra].
  - intros [?%unit_draw_spec [?%unit_draw_spec _]%andb_true_iff]%andb_true_iff.
    done.
Qed.

Lemma Qfloor_interval (x : Q) (k : Z) :
  inject_Z k <= x → x < inject_Z k + 1 → Qfloor x = k.
Proof.
  intros Hlo Hhi. pose proof (Qfloor_le x) as Hf.
  apply Qfloor_resp_le in Hlo. rewrite Qfloor_Z in Hlo.
  assert (inject_Z (Qfloor x) < inject_Z (k + 1)) as Hlt.
  { rewrite inject_Z_plus. change (inject_Z 1) with 1. lra. }
  rewrite <- Zlt_Qlt in Hlt. lia.
Qed.
End draws.

Lemma SENSOR_RANGES_temperature :
  SENSOR_RANGES !! "temperature" = Some (20, 35)%Q.
Proof. reflexivity. Qed.

Lemma SENSOR_RANGES_humidity : SENSOR_RANGES !! "humidity" = Some (30, 90)%Q.
Proof. reflexivity. Qed.

Lemma SENSOR_RANGES_motion : SENSOR_RANGES !! "motion" = Some (0, 1)%Q.
Proof. reflexivity. Qed.

(** The three runs of [generate_sensor_reading], by the third of the unit
    interval that the first draw falls in. *)
Section runs.
Local Opaque Qfloor Qmult Qplus Qminus inject_Z round2.

Lemma generate_temperature (dev : string) (w : world) :
  Qfloor (hd 0%Q (rng w) * inject_Z 3) = 0 →
  generate_sensor_reading dev w =
    (Ok (dev, "temperature",
         round2 (20 + (35 - 20) * hd 0%Q (rng (drawn w)))), drawn (drawn w)).
Proof.
  intros Hi. unfold generate_sensor_reading, random_choice, randbelow,
    random_uniform, random_random, py_index. monad_unfold. simpl.
  change (Z.of_nat 3) with 3. rewrite Hi. reflexivity.
Qed.

Lemma generate_humidity (dev : string) (w : world) :
  Qfloor (hd 0%Q (rng w) * inject_Z 3) = 1 →
  generate_sensor_reading dev w =
    (Ok (dev, "humidity",
         round2 (30 + (90 - 30) * hd 0%Q (rng (drawn w)))), drawn (drawn w)).
Proof.
  intros Hi. unfold generate_sensor_reading, random_choice, randbelow,
    random_uniform, random_random, py_index. monad_unfold. simpl.
  change (Z.of_nat 3) with 3. rewrite Hi. reflexivity.
Qed.

Lemma generate_motion (dev : string) (w : world) :
  Qfloor (hd 0%Q (rng w) * inject_Z 3) = 2 →
  generate_sensor_reading dev w =
    (Ok (dev, "motion",
         inject_Z (Qfloor (hd 0%Q (rng (drawn w)) * inject_Z 2))),
     drawn (drawn w)).
Proof.
  intros Hi. unfold generate_sensor_reading, random_choice, randbelow,
    random_randint, random_random, py_index. monad_unfold. simpl.
  change (Z.of_nat 3) with 3. rewrite Hi. reflexivity.
Qed.
End runs.



(** ** One sweep of the generator *)

Lemma generate_and_insert_data_loop (session : option Session)
    (p : option prepared) (w : world) :
  generate_and_insert_data session p w
  = for_each DEVICE_IDS (sweep_step session p (clock w)) w.
Proof. reflexivity. Qed.

Lemma NoDup_DEVICE_IDS : NoDup DEVICE_IDS.
Proof. apply (bool_decide_unpack _). reflexivity. Qed.

(** Generating a reading touches the random source only. *)
Lemma generate_sensor_reading_frame (dev : string) (w : world) :
  ∃ o w', generate_sensor_reading dev w = (o, w') ∧
    db w' = db w ∧ wire w' = wire w ∧ clock w' = clock w ∧
    ∀ dev' ty v, o = Ok (dev', ty, v) → dev' = dev.
Proof.
  unfold generate_sensor_reading, random_choice, randbelow, random_randint,
    random_uniform, random_random, py_index. monad_unfold. simpl.
  repeat case_match; simplify_eq; simpl;
    (eexists _, _; split; [reflexivity|]; repeat split; congruence).
Qed.

(** Inserting sends at most the one write, stamped as asked, and changes
    at most the row under its key. *)
Lemma insert_sensor_reading_frame (session : option Session)
    (p : option prepared) (dev : string) (ts : Z) (ty : string) (v : Q)
    (w : world) :
  ∃ b w', insert_sensor_reading session p dev ts ty v w = (Ok b, w') ∧
    (wire w' = wire w ∨
     ∃ ks tbl, wire w' = wire w ++
                 [Execute (InsertReading ks tbl (Reading dev ts ty v))]) ∧
    clock w ≤ clock w' ∧
    ∀ ks tbl dev' ts', (dev', ts') ≠ (dev, ts) →
      reading_at w' ks tbl dev' ts' = reading_at w ks tbl dev' ts'.
Proof.
  unfold insert_sensor_reading.
  destruct session as [s|], p as [[q]|]; monad_unfold; simpl;
    try (eexists _, _; split; [reflexivity|];
         split; [by left|]; split; [lia|done]).
  destruct q as [ks tbl|ks tbl|ks tbl]; unfold raise; simpl;
    try (eexists _, _; split; [reflexivity|]; simpl;
         split; [by left|]; split; [lia|done]).
  destruct (outage (hd default_event (net w))); simpl.
  { eexists _, _. split; [reflexivity|]. simpl.
    split; [right; eauto|]. split; [lia|done]. }
  destruct (tables (db w) !! (ks, tbl)) as [t|] eqn:Ht; simpl.
  - eexists _, _. split; [reflexivity|]. simpl.
    split; [right; eauto|]. split; [lia|].
    intros ks' tbl' dev' ts' Hne. unfold reading_at. simpl.
    destruct (decide ((ks', tbl') = (ks, tbl))) as [[= -> ->]|Hk].
    + rewrite lookup_insert_eq, Ht. simpl. unfold upsert. simpl.
      rewrite lookup_insert_ne; [done|congruence].
    + rewrite lookup_insert_ne; [done|congruence].
  - eexists _, _. split; [reflexivity|]. simpl.
    split; [right; eauto|]. split; [lia|done].
Qed.

(** One turn of the loop. *)
Lemma sweep_step_frame (session : option Session) (p : option prepared)
    (ts : Z) (dev : string) (w : world) :
  ∃ o w', sweep_step session p ts dev w = (o, w') ∧
    (wire w' = wire w ∨
     ∃ ks tbl ty v, wire w' = wire w ++
                 [Execute (InsertReading ks tbl (Reading dev ts ty v))]) ∧
    clock w ≤ clock w' ∧
    ∀ ks tbl dev' ts', (dev', ts') ≠ (dev, ts) →
      reading_at w' ks tbl dev' ts' = reading_at w ks tbl dev' ts'.
Proof.
  unfold sweep_step.
  destruct (generate_sensor_reading_frame dev w)
    as (o & w1 & Hgen & Hdb & Hwire & Hclock & Hdev).
  unfold mbind at 1, M_bind at 1. rewrite Hgen.
  destruct o as [[[dev' ty] v]|e].
  2: { eexists _, _. split; [reflexivity|]. unfold reading_at.
       rewrite Hdb, Hwire, Hclock. split; [by left|]. split; [lia|done]. }
  rewrite (Hdev dev' ty v eq_refl).
  destruct (insert_sensor_reading_frame session p dev ts ty v w1)
    as (b & w2 & Hins & Hsent & Hclock2 & Hrows).
  unfold mbind, M_bind. rewrite Hins.
  assert (∀ ks tbl dev' ts', reading_at w1 ks tbl dev' ts'
                             = reading_at w ks tbl dev' ts') as Hsame
    by (intros; unfold reading_at; by rewrite Hdb).
  destruct b; unfold print; (eexists _, _; split; [reflexivity|]); simpl;
    rewrite <- Hwire, <- Hclock;
    (split; [destruct Hsent as [?|(ks & tbl & ?)]; eauto 6|]);
    (split; [done|]); intros ks tbl d' ts' Hne;
    unfold reading_at in *; simpl; rewrite <- Hsame; by apply Hrows.
Qed.

(** The loop over any list of devices. *)
Lemma sweep_frame (session : option Session) (p : option prepared) (ts : Z)
    (l : list string) (w : world) :
  ∃ sent, wire (snd (for_each l (sweep_step session p ts) w)) = wire w ++ sent ∧
    Forall (insert_at ts) sent ∧
    sublist (omap request_device sent) l ∧
    clock w ≤ clock (snd (for_each l (sweep_step session p ts) w)) ∧
    ∀ ks tbl dev' ts', (ts' ≠ ts ∨ dev' ∉ l) →
      reading_at (snd (for_each l (sweep_step session p ts) w)) ks tbl dev' ts'
      = reading_at w ks tbl dev' ts'.
Proof.
  revert w. induction l as [|dev l IH]; intros w; simpl.
  { exists []. rewrite app_nil_r.
    split; [done|]. split; [constructor|]. split; [done|]. split; [lia|done]. }
  destruct (sweep_step_frame session p ts dev w)
    as (o & w1 & Hstep & Hsent & Hclock & Hrows).
  unfold mbind, M_bind. rewrite Hstep.
  assert (Hother : ∀ ks tbl dev' ts', (ts' ≠ ts ∨ dev' ∉ dev :: l) →
            reading_at w1 ks tbl dev' ts' = reading_at w ks tbl dev' ts').
  { intros ks tbl dev' ts' Hne. apply Hrows. intros [= -> ->].
    destruct Hne as [?|Hnotin]; [done|]. apply Hnotin. by left. }
  destruct o as [[]|e]; simpl.
  - destruct (IH w1) as (sent & Hwire & Hall & Hsub & Hclock' & Hrows').
    assert (Hrest : ∀ ks tbl dev' ts', (ts' ≠ ts ∨ dev' ∉ dev :: l) →
              reading_at (for_each l (sweep_step session p ts) w1).2
                ks tbl dev' ts' = reading_at w ks tbl dev' ts').
    { intros ks tbl dev' ts' Hne. rewrite Hrows', Hother; [done..|].
      destruct Hne as [?|Hnotin]; [by left|right].
      intros ?. apply Hnotin. by right. }
    destruct Hsent as [Hw|(ks & tbl & ty & v & Hw)].
    + exists sent. rewrite Hwire, Hw.
      split; [done|]. split; [done|]. split; [by apply sublist_cons|].
      split; [lia|done].
    + exists (Execute (InsertReading ks tbl (Reading dev ts ty v)) :: sent).
      rewrite Hwire, Hw, <- app_assoc.
      split; [done|]. split.
      { constructor; [|done]. by exists ks, tbl, (Reading dev ts ty v). }
      split; [simpl; by apply sublist_skip|]. split; [lia|done].
  - destruct Hsent as [Hw|(ks & tbl & ty & v & Hw)].
    + exists []. rewrite Hw, app_nil_r.
      split; [done|]. split; [constructor|]. split; [apply sublist_nil_l|].
      split; [lia|done].
    + exists [Execute (InsertReading ks tbl (Reading dev ts ty v))].
      rewrite Hw. split; [done|]. split.
      { constructor; [|constructor]. by exists ks, tbl, (Reading dev ts ty v). }
      split; [simpl; apply sublist_skip, sublist_nil_l|]. split; [lia|done].
Qed.

(** C10: whatever the session, the statement handle and the world, the
    requests that one call of [generate_and_insert_data] sends are writes
    that all carry the instant read from the clock before the loop, though
    the clock moves on with every request; they are about devices of
    [DEVICE_IDS] in the order of the list, each at most once; and no stored
    row of another instant or of another device changes. *)
Theorem sweep_shares_one_timestamp (w : world) (session : option Session)
    (p : option prepared) :
  ∃ sent,
    wire (snd (generate_and_insert_data session p w)) = wire w ++ sent ∧
    Forall (insert_at (clock w)) sent ∧
    sublist (omap request_device sent) DEVICE_IDS ∧
    NoDup (omap request_device sent) ∧
    clock w ≤ clock (snd (generate_and_insert_data session p w)) ∧
    ∀ ks tbl dev ts, (ts ≠ clock w ∨ dev ∉ DEVICE_IDS) →
      reading_at (snd (generate_and_insert_data session p w)) ks tbl dev ts
      = reading_at w ks tbl dev ts.
Proof.
  rewrite generate_and_insert_data_loop.
  destruct (sweep_frame session p (clock w) DEVICE_IDS w)
    as (sent & Hwire & Hall & Hsub & Hclock & Hrows).
  exists sent. split; [done|]. split; [done|]. split; [done|].
  split; [|done].
  apply (sublist_NoDup _ DEVICE_IDS); [|exact Hsub].
  apply NoDup_DEVICE_IDS.
Qed.

Lemma sweep_shares_one_timestamp_witness :
  ∃ sent,
    wire (snd (generate_and_insert_data live insert_prepared busy_world))
    = [] ++ sent ∧
    Forall (insert_at 1000) sent ∧
    sublist (omap request_device sent) DEVICE_IDS ∧
    NoDup (omap request_device sent) ∧
    1000 ≤ clock (snd (generate_and_insert_data live insert_prepared busy_world)) ∧
    ∀ ks tbl dev ts, (ts ≠ 1000 ∨ dev ∉ DEVICE_IDS) →
      reading_at (snd (generate_and_insert_data live insert_prepared busy_world))
        ks tbl dev ts
      = reading_at busy_world ks tbl dev ts.
Proof. apply (sweep_shares_one_timestamp busy_world live insert_prepared). Defined.

(** * Further properties *)

(** ** Looking a table up, creating it *)

Lemma available_1 (w : world) :
  available 1 w = true ↔ outage (hd default_event (net w)) = false.
Proof.
  unfold available. destruct (net w) as [|e evs]; simpl; [done|].
  rewrite ?take_0. simpl. rewrite andb_true_r. apply negb_true_iff.
Qed.

(** X1: [table_exists] answers with what the store holds when it is reached,
    with [False] when it is not, and writes nothing. *)
Theorem table_exists_answer :
  (∀ (w : world) (s : Session) (ks tbl : string),
     available 1 w = true →
     ∃ w', table_exists (Some s) ks tbl w
           = (Ok (bool_decide (is_Some (tables (db w) !! (ks, tbl)))), w') ∧
       db w' = db w ∧
       wire w' = wire w ++ [Execute (SelectTable ks tbl)]) ∧
  (∀ (w : world) (s : Session) (ks tbl : string),
     available 1 w = false →
     ∃ w', table_exists (Some s) ks tbl w = (Ok false, w') ∧
       db w' = db w ∧
       stdout w' = stdout w ++ [TableCheckError NoHostAvailable]).
Proof.
  split.
  - intros w s ks tbl Ho%available_1.
    unfold table_exists. monad_unfold. simpl. rewrite Ho. simpl.
    destruct (tables (db w) !! (ks, tbl)) as [t|] eqn:Ht; simpl;
      (eexists; split; [reflexivity|]; simpl; split; [by destruct (db w)|done]).
  - intros w s ks tbl Ho%unavailable_1.
    unfold table_exists. monad_unfold. simpl. rewrite Ho. simpl.
    eexists. split; [reflexivity|]. done.
Qed.

Lemma table_exists_answer_witness :
  (∃ w', table_exists (Some Connected) default_keyspace default_table
           fresh_world
         = (Ok (bool_decide (is_Some (tables (db fresh_world)
                                        !! (default_keyspace, default_table)))),
            w') ∧
     db w' = db fresh_world ∧
     wire w' = wire fresh_world
               ++ [Execute (SelectTable default_keyspace default_table)]) ∧
  (∃ w', table_exists (Some Connected) default_keyspace default_table
           unreachable_world = (Ok false, w') ∧
     db w' = db unreachable_world ∧
     stdout w' = stdout unreachable_world
                 ++ [TableCheckError NoHostAvailable]).
Proof.
  split.
  - apply (proj1 table_exists_answer). reflexivity.
  - apply (proj2 table_exists_answer). reflexivity.
Defined.

(** What a run of [create_table] can do to the database. *)
Lemma create_table_effect (w : world) (session : option Session)
    (ks tbl : string) :
  ∃ b w', create_table session ks tbl w = (Ok b, w') ∧
    (db w' = db w ∨
     (tables (db w) !! (ks, tbl) = None ∧ is_Some (keyspaces (db w) !! ks) ∧
      b = true ∧
      db w' = with_tables (db w) (<[(ks, tbl) := ∅]> (tables (db w))))).
Proof.
  unfold create_table, table_exists.
  destruct session as [s|]; monad_unfold; simpl.
  2: { eexists _, _. split; [reflexivity|]. by left. }
  assert (Hsame : ∀ d, Database (keyspaces d) (tables d) (accepts_replication d) = d)
    by (by intros []).
  destruct (outage (hd default_event (net w))); simpl.
  - destruct (outage (hd default_event (tl (net w)))); simpl.
    { eexists _, _. split; [reflexivity|]. left. simpl. first [done|apply Hsame]. }
    destruct (tables (db w) !! (ks, tbl)) eqn:Ht; simpl.
    { eexists _, _. split; [reflexivity|]. left. simpl. first [done|apply Hsame]. }
    destruct (keyspaces (db w) !! ks) eqn:Hks; simpl.
    + eexists _, _. split; [reflexivity|]. right. simpl. eauto.
    + eexists _, _. split; [reflexivity|]. left. simpl. first [done|apply Hsame].
  - destruct (tables (db w) !! (ks, tbl)) eqn:Ht; simpl.
    { eexists _, _. split; [reflexivity|]. left. simpl. first [done|apply Hsame]. }
    destruct (outage (hd default_event (tl (net w)))); simpl.
    { eexists _, _. split; [reflexivity|]. left. simpl. first [done|apply Hsame]. }
    rewrite Ht. destruct (keyspaces (db w) !! ks) eqn:Hks; simpl.
    + eexists _, _. split; [reflexivity|]. right. simpl. eauto.
    + eexists _, _. split; [reflexivity|]. left. simpl. first [done|apply Hsame].
Qed.

(** X2: [create_table] raises nothing and is harmless to what is stored: it
    leaves the keyspaces alone, every table that exists keeps its rows, and
    the only table it can add is the one asked for, empty, in a keyspace
    that exists. *)
Theorem create_table_keeps_data (w : world) (session : option Session)
    (ks tbl : string) :
  ∃ b w', create_table session ks tbl w = (Ok b, w') ∧
    keyspaces (db w') = keyspaces (db w) ∧
    (∀ k t, tables (db w) !! k = Some t → tables (db w') !! k = Some t) ∧
    (∀ k t, tables (db w') !! k = Some t →
       tables (db w) !! k = Some t ∨
       (k = (ks, tbl) ∧ t = ∅ ∧ is_Some (keyspaces (db w) !! ks))).
Proof.
  destruct (create_table_effect w session ks tbl)
    as (b & w' & Hrun & [Hdb | (Hnone & Hks & _ & Hdb)]);
    exists b, w'; (split; [exact Hrun|]); rewrite Hdb; simpl.
  - split; [done|]. split; [done|]. intros k t Hk. by left.
  - split; [done|]. split.
    + intros k t Hk. rewrite lookup_insert_ne; [done|]. intros <-. congruence.
    + intros k t Hk. destruct (decide (k = (ks, tbl))) as [->|Hne].
      * rewrite lookup_insert_eq in Hk. injection Hk as <-. by right.
      * rewrite lookup_insert_ne in Hk by done. by left.
Qed.

Lemma create_table_keeps_data_witness :
  ∃ b w', create_table live "archive" "events" fresh_world = (Ok b, w') ∧
    keyspaces (db w') = keyspaces (db fresh_world) ∧
    (∀ k t, tables (db fresh_world) !! k = Some t →
            tables (db w') !! k = Some t) ∧
    (∀ k t, tables (db w') !! k = Some t →
       tables (db fresh_world) !! k = Some t ∨
       (k = ("archive", "events") ∧ t = ∅ ∧
        is_Some (keyspaces (db fresh_world) !! "archive"))).
Proof. apply (create_table_keeps_data fresh_world live "archive" "events"). Defined.

Lemma coming_event_0 (w : world) : coming_event w 0 = hd default_event (net w).
Proof. done. Qed.

Lemma coming_event_S (w : world) (r : request) (i : nat) :
  coming_event (transmit r w) i = coming_event w (S i).
Proof.
  unfold coming_event, transmit. simpl.
  destruct (net w); simpl; [by rewrite !drop_nil|done].
Qed.

Lemma coming_event_1 (w : world) :
  coming_event w 1 = hd default_event (tl (net w)).
Proof. unfold coming_event. by destruct (net w). Qed.

(** X3: when the store answers, [create_table] succeeds exactly when the table
    or at least its keyspace is there; after a success the table exists,
    after a failure the database is as before. *)
Theorem create_table_outcome (w : world) (s : Session) (ks tbl : string) :
  available 2 w = true →
  ∃ b w', create_table (Some s) ks tbl w = (Ok b, w') ∧
    (b = true ↔ is_Some (tables (db w) !! (ks, tbl)) ∨
                is_Some (keyspaces (db w) !! ks)) ∧
    (b = true → is_Some (tables (db w') !! (ks, tbl))) ∧
    (b = false → db w' = db w).
Proof.
  intros Hav. apply available_S in Hav as [Ho1 Hav].
  specialize (Hav (Execute (SelectTable ks tbl))).
  apply available_S in Hav as [Ho2 _]. simpl in Ho2.
  unfold create_table, table_exists. monad_unfold. simpl.
  rewrite Ho1. simpl.
  destruct (tables (db w) !! (ks, tbl)) as [t|] eqn:Ht; simpl.
  { eexists _, _. split; [reflexivity|]. simpl. rewrite Ht.
    split; [|split; [eauto|done]]. split; [eauto|done]. }
  rewrite Ho2. simpl. rewrite Ht.
  destruct (keyspaces (db w) !! ks) as [f|] eqn:Hks; simpl.
  - eexists _, _. split; [reflexivity|]. simpl. rewrite lookup_insert_eq.
    split; [|split; [eauto|done]]. split; [eauto|done].
  - eexists _, _. split; [reflexivity|]. simpl.
    split; [|split; [done|by destruct (db w)]].
    split; [done|]. intros [[? [=]]|[? [=]]].
Qed.

Lemma create_table_outcome_witness :
  ∃ b w', create_table (Some Connected) "archive" "events" fresh_world
          = (Ok b, w') ∧
    (b = true ↔ is_Some (tables (db fresh_world) !! ("archive", "events")) ∨
                is_Some (keyspaces (db fresh_world) !! "archive")) ∧
    (b = true → is_Some (tables (db w') !! ("archive", "events"))) ∧
    (b = false → db w' = db fresh_world).
Proof. apply (create_table_outcome fresh_world). reflexivity. Defined.

(** X4: a check that could not reach the store counts as "no table":
    [create_table] goes on and sends the CREATE; on a table that exists
    the store's IF NOT EXISTS makes it a success that changes nothing. *)
Theorem create_table_after_failed_check (w : world) (s : Session)
    (ks tbl : string) :
  outage (coming_event w 0) = true →
  outage (coming_event w 1) = false →
  is_Some (tables (db w) !! (ks, tbl)) →
  ∃ w', create_table (Some s) ks tbl w = (Ok true, w') ∧
    db w' = db w ∧
    wire w' = wire w ++ [Execute (SelectTable ks tbl);
                         Execute (CreateTable ks tbl)].
Proof.
  rewrite coming_event_0, coming_event_1. intros Ho1 Ho2 [t Ht].
  unfold create_table, table_exists. monad_unfold. simpl.
  rewrite Ho1. simpl. rewrite Ho2. simpl. rewrite Ht. simpl.
  eexists. split; [reflexivity|]. simpl. by rewrite <- app_assoc.
Qed.

Lemma create_table_after_failed_check_witness :
  ∃ w', create_table (Some Connected) default_keyspace default_table
          unreachable_world = (Ok true, w') ∧
    db w' = db unreachable_world ∧
    wire w' = wire unreachable_world
              ++ [Execute (SelectTable default_keyspace default_table);
                  Execute (CreateTable default_keyspace default_table)].
Proof.
  apply (create_table_after_failed_check unreachable_world).
  - reflexivity.
  - reflexivity.
  - vm_compute. eauto.
Defined.

(** ** Creating a keyspace *)

(** What a run of [create_keyspace_if_not_exists] can do to the database. *)
Lemma create_keyspace_effect (w : world) (session : option Session)
    (ks : string) (rf : Z) :
  ∃ b w', create_keyspace_if_not_exists session ks rf w = (Ok b, w') ∧
    tables (db w') = tables (db w) ∧
    (∀ k f, keyspaces (db w) !! k = Some f → keyspaces (db w') !! k = Some f) ∧
    (∀ k f, keyspaces (db w') !! k = Some f →
       keyspaces (db w) !! k = Some f ∨
       (k = ks ∧ f = rf ∧ accepts_replication (db w) rf = true ∧ b = true)).
Proof.
  unfold create_keyspace_if_not_exists.
  destruct session as [s|]; monad_unfold; simpl.
  2: { eexists _, _. split; [reflexivity|]. simpl. eauto. }
  destruct (outage (hd default_event (net w))); simpl.
  { eexists _, _. split; [reflexivity|]. simpl. eauto. }
  destruct (keyspaces (db w) !! ks) as [f0|] eqn:Hks; simpl.
  { eexists _, _. split; [reflexivity|]. simpl. eauto. }
  destruct (outage (hd default_event (tl (net w)))); simpl.
  { eexists _, _. split; [reflexivity|]. simpl. eauto. }
  rewrite Hks. destruct (accepts_replication (db w) rf) eqn:Hacc; simpl.
  2: { eexists _, _. split; [reflexivity|]. simpl. eauto. }
  eexists _, _. split; [reflexivity|]. simpl. split; [done|]. split.
  - intros k f Hk. rewrite lookup_insert_ne; [done|]. intros <-. congruence.
  - intros k f Hk. destruct (decide (k = ks)) as [->|Hne].
    + rewrite lookup_insert_eq in Hk. injection Hk as <-. by right.
    + rewrite lookup_insert_ne in Hk by done. by left.
Qed.

(** X5: [create_keyspace_if_not_exists] leaves the tables alone and never
    changes the replication factor of a keyspace that exists; the only
    keyspace it can add is the one asked for, with the factor asked for,
    and then it returns [True]. *)
Theorem create_keyspace_keeps_factors (w : world) (session : option Session)
    (ks : string) (rf : Z) :
  ∃ b w', create_keyspace_if_not_exists session ks rf w = (Ok b, w') ∧
    tables (db w') = tables (db w) ∧
    (∀ k f, keyspaces (db w) !! k = Some f → keyspaces (db w') !! k = Some f) ∧
    (∀ k f, keyspaces (db w') !! k = Some f →
       keyspaces (db w) !! k = Some f ∨
       (k = ks ∧ f = rf ∧ accepts_replication (db w) rf = true ∧ b = true)).
Proof. apply create_keyspace_effect. Qed.

Lemma create_keyspace_keeps_factors_witness :
  ∃ b w', create_keyspace_if_not_exists live default_keyspace 3 fresh_world
          = (Ok b, w') ∧
    tables (db w') = tables (db fresh_world) ∧
    (∀ k f, keyspaces (db fresh_world) !! k = Some f →
            keyspaces (db w') !! k = Some f) ∧
    (∀ k f, keyspaces (db w') !! k = Some f →
       keyspaces (db fresh_world) !! k = Some f ∨
       (k = default_keyspace ∧ f = 3 ∧
        accepts_replication (db fresh_world) 3 = true ∧ b = true)).
Proof.
  apply (create_keyspace_keeps_factors fresh_world live default_keyspace 3).
Defined.

(** ** The writer *)

(** X6: [prepare_insert_statement] raises nothing and writes nothing; the
    handle it returns, if any, is the insert into the table asked for, and
    that table exists; it does return one when the session is live, the
    store answers and the table is there. *)
Theorem prepare_insert_statement_handle (w : world)
    (session : option Session) (ks tbl : string) :
  ∃ o w', prepare_insert_statement session ks tbl w = (Ok o, w') ∧
    db w' = db w ∧
    (∀ p, o = Some p →
       p = Prepared (InsertT ks tbl) ∧ is_Some session ∧
       is_Some (tables (db w) !! (ks, tbl))) ∧
    (is_Some session → available 1 w = true →
     is_Some (tables (db w) !! (ks, tbl)) →
     o = Some (Prepared (InsertT ks tbl))).
Proof.
  unfold prepare_insert_statement.
  destruct session as [s|]; monad_unfold; simpl.
  2: { eexists _, _. split; [reflexivity|]. split; [done|].
       split; [done|]. by intros [? [=]]. }
  destruct (outage (hd default_event (net w))) eqn:Ho; simpl.
  { eexists _, _. split; [reflexivity|]. split; [done|]. split; [done|].
    intros _ Hav%available_1. congruence. }
  destruct (tables (db w) !! (ks, tbl)) as [t|] eqn:Ht; simpl.
  - eexists _, _. split; [reflexivity|]. split; [done|].
    split; [|done]. intros p [= <-]. eauto.
  - eexists _, _. split; [reflexivity|]. split; [done|]. split; [done|].
    by intros _ _ [? [=]].
Qed.

Lemma prepare_insert_statement_handle_witness :
  ∃ o w', prepare_insert_statement live default_keyspace default_table
            fresh_world = (Ok o, w') ∧
    db w' = db fresh_world ∧
    (∀ p, o = Some p →
       p = Prepared (InsertT default_keyspace default_table) ∧ is_Some live ∧
       is_Some (tables (db fresh_world) !! (default_keyspace, default_table))) ∧
    (is_Some live → available 1 fresh_world = true →
     is_Some (tables (db fresh_world) !! (default_keyspace, default_table)) →
     o = Some (Prepared (InsertT default_keyspace default_table))).
Proof.
  apply (prepare_insert_statement_handle fresh_world live default_keyspace
           default_table).
Defined.

Lemma table_rows_upsert (t : gmap (string * Z) (string * Q)) (r : reading) :
  table_rows (upsert r t)
  ≡ₚ r :: table_rows (delete (device_id r, timestamp r) t).
Proof.
  unfold upsert, table_rows. rewrite <- insert_delete_eq.
  rewrite map_to_list_insert by apply lookup_delete_eq.
  rewrite fmap_cons. by destruct r.
Qed.

Lemma table_rows_delete (t : gmap (string * Z) (string * Q)) (r : reading) :
  r ∈ table_rows t →
  table_rows t ≡ₚ r :: table_rows (delete (device_id r, timestamp r) t).
Proof.
  intros Hr%elem_of_table_rows. unfold table_rows.
  rewrite <- (map_to_list_delete t _ _ Hr), fmap_cons. by destruct r.
Qed.



(** X8: the writer's path: a reading inserted through the handle that
    [prepare_insert_statement] returned is stored under its device and
    instant, and no row under another key changes, when the table exists
    and the store answers both requests. *)
Theorem prepared_insert_is_stored (w : world) (s : Session) (ks tbl : string)
    (dev : string) (ts : Z) (ty : string) (v : Q) :
  is_Some (tables (db w) !! (ks, tbl)) →
  available 2 w = true →
  ∃ w', (p ← prepare_insert_statement (Some s) ks tbl;
         insert_sensor_reading (Some s) p dev ts ty v) w = (Ok true, w') ∧
    reading_at w' ks tbl dev ts = Some (ty, v) ∧
    ∀ dev' ts', (dev', ts') ≠ (dev, ts) →
      reading_at w' ks tbl dev' ts' = reading_at w ks tbl dev' ts'.
Proof.
  intros [t Ht] Hav. apply available_S in Hav as [Ho1 Hav].
  specialize (Hav (Prepare (InsertT ks tbl))).
  apply available_S in Hav as [Ho2 _]. simpl in Ho2.
  unfold prepare_insert_statement, insert_sensor_reading. monad_unfold. simpl.
  rewrite Ho1. simpl. rewrite Ht. simpl. rewrite Ho2. simpl. rewrite Ht. simpl.
  eexists. split; [reflexivity|]. unfold reading_at. simpl.
  rewrite lookup_insert_eq, Ht. simpl. unfold upsert. simpl. split.
  - by rewrite lookup_insert_eq.
  - intros dev' ts' Hne. rewrite lookup_insert_ne; [done|congruence].
Qed.

Lemma prepared_insert_is_stored_witness :
  ∃ w', (p ← prepare_insert_statement (Some Connected) default_keyspace
               default_table;
         insert_sensor_reading (Some Connected) p "device_2" 1500 "humidity"
           (123 # 2)) fresh_world = (Ok true, w') ∧
    reading_at w' default_keyspace default_table "device_2" 1500
    = Some ("humidity", (123 # 2)%Q) ∧
    ∀ dev' ts', (dev', ts') ≠ ("device_2", 1500) →
      reading_at w' default_keyspace default_table dev' ts'
      = reading_at fresh_world default_keyspace default_table dev' ts'.
Proof.
  apply (prepared_insert_is_stored fresh_world Connected default_keyspace
           default_table "device_2" 1500 "humidity" (123 # 2)%Q).
  - vm_compute. eauto.
  - reflexivity.
Defined.

(** X9: last write wins: a second successful insert under the device and
    instant of a first one replaces its row; the device has as many rows
    as before, and the first reading is gone unless it was the same. *)
Theorem second_insert_overwrites (w w1 w2 : world) (session : option Session)
    (ks tbl dev : string) (ts : Z) (ty1 ty2 : string) (v1 v2 : Q) :
  insert_sensor_reading session (Some (Prepared (InsertT ks tbl)))
    dev ts ty1 v1 w = (Ok true, w1) →
  insert_sensor_reading session (Some (Prepared (InsertT ks tbl)))
    dev ts ty2 v2 w1 = (Ok true, w2) →
  reading_at w2 ks tbl dev ts = Some (ty2, v2) ∧
  length (stored_readings w2 ks tbl dev)
  = length (stored_readings w1 ks tbl dev) ∧
  (Reading dev ts ty1 v1 ∈ stored_readings w2 ks tbl dev →
   (ty1, v1) = (ty2, v2)).
Proof.
  intros (s & ks1 & tbl1 & t & -> & [= <- <-] & Ht & Ht1 & _)
           %insert_sensor_reading_true.
  intros (s' & ks2 & tbl2 & t1 & _ & [= <- <-] & Ht1' & Ht2 & _)
           %insert_sensor_reading_true.
  rewrite Ht1 in Ht1'. injection Ht1' as <-.
  set (r1 := Reading dev ts ty1 v1) in *. set (r2 := Reading dev ts ty2 v2) in *.
  assert (Hin1 : r1 ∈ table_rows (upsert r1 t)).
  { apply elem_of_table_rows. unfold upsert. simpl. by rewrite lookup_insert_eq. }
  unfold reading_at, stored_readings. rewrite Ht2, Ht1. simpl. split; [|split].
  - unfold upsert. simpl. by rewrite lookup_insert_eq.
  - rewrite (table_rows_upsert (upsert r1 t) r2).
    rewrite (table_rows_delete (upsert r1 t) r1 Hin1).
    rewrite !filter_cons, !decide_True by done. done.
  - intros [_ Hin]%list_elem_of_filter. apply elem_of_table_rows in Hin.
    unfold upsert in Hin. simpl in Hin. rewrite lookup_insert_eq in Hin.
    by injection Hin as -> ->.
Qed.

Lemma second_insert_overwrites_witness :
  let w1 := snd (insert_sensor_reading live insert_prepared "device_1" 1000
                   "temperature" 21 fresh_world) in
  let w2 := snd (insert_sensor_reading live insert_prepared "device_1" 1000
                   "humidity" 40 w1) in
  reading_at w2 default_keyspace default_table "device_1" 1000
  = Some ("humidity", 40%Q) ∧
  length (stored_readings w2 default_keyspace default_table "device_1")
  = length (stored_readings w1 default_keyspace default_table "device_1") ∧
  (Reading "device_1" 1000 "temperature" 21
     ∈ stored_readings w2 default_keyspace default_table "device_1" →
   ("temperature", 21%Q) = ("humidity", 40%Q)).
Proof.
  apply (second_insert_overwrites fresh_world _ _ live default_keyspace
           default_table "device_1" 1000 "temperature" "humidity" 21%Q 40%Q).
  - vm_compute. reflexivity.
  - vm_compute. reflexivity.
Defined.

(** ** The readers *)

Lemma only_read_intro (w w' : world) (sent : list request) :
  db w' = db w → rng w' = rng w → stdin w' = stdin w →
  wire w' = wire w ++ sent → forallb read_only sent = true →
  only_read w w'.
Proof. intros. repeat split; eauto. Qed.

Lemma get_recent_readings_only_read (w : world) (session : option Session)
    (dev : string) (limit : Z) (ks tbl : string) :
  ∃ df w', get_recent_readings session dev limit ks tbl w = (Ok df, w') ∧
    only_read w w'.
Proof.
  unfold get_recent_readings. destruct session as [s|]; monad_unfold; simpl;
    [|only_read_sent (@nil request)].
  destruct (outage (hd default_event (net w))); simpl;
    [only_read_sent [Prepare (RecentT ks tbl)]|].
  destruct (tables (db w) !! (ks, tbl)) as [t|] eqn:Ht; simpl;
    [|only_read_sent [Prepare (RecentT ks tbl)]].
  destruct (outage (hd default_event (tl (net w)))); simpl;
    [only_read_sent [Prepare (RecentT ks tbl);
                     Execute (SelectRecent ks tbl dev limit)]|].
  rewrite Ht. destruct (decide (0 < limit)); simpl;
    [|only_read_sent [Prepare (RecentT ks tbl);
                      Execute (SelectRecent ks tbl dev limit)]].
  destruct (take (Z.to_nat limit) (partition_rows t dev)); simpl;
    only_read_sent [Prepare (RecentT ks tbl);
                    Execute (SelectRecent ks tbl dev limit)].
Qed.

Lemma get_average_value_only_read (w : world) (session : option Session)
    (dev ty ks tbl : string) :
  ∃ o w', get_average_value session dev ty ks tbl w = (Ok o, w') ∧
    only_read w w'.
Proof.
  unfold get_average_value. destruct session as [s|]; monad_unfold; simpl;
    [|only_read_sent (@nil request)].
  destruct (outage (hd default_event (net w))); simpl;
    [only_read_sent [Prepare (ValuesT ks tbl)]|].
  destruct (tables (db w) !! (ks, tbl)) as [t|] eqn:Ht; simpl;
    [|only_read_sent [Prepare (ValuesT ks tbl)]].
  destruct (outage (hd default_event (tl (net w)))); simpl;
    [only_read_sent [Prepare (ValuesT ks tbl);
                     Execute (SelectValues ks tbl dev ty)]|].
  rewrite Ht.
  destruct (sensor_value <$> filter _ (partition_rows t dev)); simpl;
    only_read_sent [Prepare (ValuesT ks tbl);
                    Execute (SelectValues ks tbl dev ty)].
Qed.

Lemma get_all_devices_only_read (w : world) (session : option Session)
    (ks tbl : string) :
  ∃ l w', get_all_devices session ks tbl w = (Ok l, w') ∧ only_read w w'.
Proof.
  unfold get_all_devices. destruct session as [s|]; monad_unfold; simpl;
    [|only_read_sent (@nil request)].
  destruct (outage (hd default_event (net w))); simpl;
    [only_read_sent [Execute (SelectDistinctDevices ks tbl)]|].
  destruct (tables (db w) !! (ks, tbl)) as [t|] eqn:Ht; simpl;
    only_read_sent [Execute (SelectDistinctDevices ks tbl)].
Qed.

(** X10: the three readers raise nothing and write nothing: whatever the
    session and the store, the database is left as it is and every request
    they send is a read. *)
Theorem readers_only_read (w : world) (session : option Session)
    (dev ty : string) (limit : Z) (ks tbl : string) :
  (∃ df w', get_recent_readings session dev limit ks tbl w = (Ok df, w') ∧
     only_read w w') ∧
  (∃ o w', get_average_value session dev ty ks tbl w = (Ok o, w') ∧
     only_read w w') ∧
  (∃ l w', get_all_devices session ks tbl w = (Ok l, w') ∧ only_read w w').
Proof.
  split; [|split].
  - apply get_recent_readings_only_read.
  - apply get_average_value_only_read.
  - apply get_all_devices_only_read.
Qed.



Section mean_bounds.
Local Open Scope Q_scope.


End mean_bounds.





(** ** A sweep on a store that can be written *)

Lemma rng_ok_drawn (w : world) : rng_ok w = true → rng_ok (drawn w) = true.
Proof.
  unfold rng_ok, drawn. simpl. destruct (rng w) as [|u us]; simpl; [done|].
  by intros [_ ?]%andb_true_iff.
Qed.

(** With draws in the unit interval [generate_sensor_reading] returns,
    and takes two draws. *)
Lemma generate_sensor_reading_returns (dev : string) (w : world) :
  rng_ok w = true →
  ∃ ty v, generate_sensor_reading dev w = (Ok (dev, ty, v), drawn (drawn w)).
Proof.
  intros [[Hu0 Hu1] _]%rng_ok_draws.
  remember (hd 0%Q (rng w)) as u eqn:Hu.
  destruct (Qlt_le_dec u (1 # 3)) as [Hlow|Hlow];
    [|destruct (Qlt_le_dec u (2 # 3)) as [Hmid|Hmid]].
  - eexists _, _. apply generate_temperature. rewrite <- Hu.
    apply Qfloor_interval; unfold inject_Z; simpl; lra.
  - eexists _, _. apply generate_humidity. rewrite <- Hu.
    apply Qfloor_interval; unfold inject_Z; simpl; lra.
  - eexists _, _. apply generate_motion. rewrite <- Hu.
    apply Qfloor_interval; unfold inject_Z; simpl; lra.
Qed.

(** One turn of the loop with a live session and an insert handle. *)
Lemma sweep_step_run (s : Session) (ks tbl : string) (ts : Z) (dev : string)
    (w : world) :
  rng_ok w = true → is_Some (tables (db w) !! (ks, tbl)) →
  ∃ ty v w1,
    sweep_step (Some s) (Some (Prepared (InsertT ks tbl))) ts dev w
    = (Ok tt, w1) ∧
    wire w1 = wire w ++ [write_of ks tbl (Reading dev ts ty v)] ∧
    net w1 = tl (net w) ∧
    rng_ok w1 = true ∧
    is_Some (tables (db w1) !! (ks, tbl)) ∧
    reading_at w1 ks tbl dev ts
    = (if outage (coming_event w 0) then reading_at w ks tbl dev ts
       else Some (ty, v)) ∧
    ∀ dev' ts', (dev', ts') ≠ (dev, ts) →
      reading_at w1 ks tbl dev' ts' = reading_at w ks tbl dev' ts'.
Proof.
  intros Hrng [t Ht].
  destruct (generate_sensor_reading_returns dev w Hrng) as (ty & v & Hgen).
  exists ty, v. unfold sweep_step. unfold mbind at 1, M_bind at 1.
  rewrite Hgen. unfold insert_sensor_reading. monad_unfold. simpl.
  rewrite coming_event_0.
  apply rng_ok_drawn, rng_ok_drawn in Hrng.
  destruct (outage (hd default_event (net w))); simpl.
  - eexists. split; [reflexivity|]. simpl.
    split; [done|]. split; [done|]. split; [done|].
    split; [rewrite Ht; eauto|]. done.
  - rewrite Ht. simpl.
    eexists. split; [reflexivity|]. simpl.
    split; [done|]. split; [done|]. split; [done|].
    split; [rewrite lookup_insert_eq; eauto|].
    unfold reading_at. simpl. rewrite lookup_insert_eq, Ht. simpl.
    unfold upsert. simpl. split; [by rewrite lookup_insert_eq|].
    intros dev' ts' Hne. rewrite lookup_insert_ne; [done|congruence].
Qed.

(** The loop over devices that are all different. *)
Lemma sweep_run (s : Session) (ks tbl : string) (ts : Z) (l : list string)
    (w : world) :
  NoDup l → rng_ok w = true → is_Some (tables (db w) !! (ks, tbl)) →
  ∃ rows w',
    for_each l (sweep_step (Some s) (Some (Prepared (InsertT ks tbl))) ts) w
    = (Ok tt, w') ∧
    device_id <$> rows = l ∧
    Forall (λ r, timestamp r = ts) rows ∧
    wire w' = wire w ++ (write_of ks tbl <$> rows) ∧
    (∀ i r, rows !! i = Some r →
       reading_at w' ks tbl (device_id r) ts
       = if outage (coming_event w i)
         then reading_at w ks tbl (device_id r) ts
         else Some (sensor_type r, sensor_value r)) ∧
    (∀ dev', dev' ∉ l →
       reading_at w' ks tbl dev' ts = reading_at w ks tbl dev' ts).
Proof.
  intros Hnodup. revert w.
  induction Hnodup as [|dev l Hnotin Hnodup IH]; intros w Hrng Htable; simpl.
  { exists [], w. rewrite app_nil_r. repeat split; try done. }
  destruct (sweep_step_run s ks tbl ts dev w Hrng Htable)
    as (ty & v & w1 & Hstep & Hwire & Hnet & Hrng1 & Htable1 & Hhere & Hframe).
  destruct (IH w1 Hrng1 Htable1)
    as (rows & w' & Hloop & Hdevs & Hts & Hwire' & Hrows & Hothers).
  exists (Reading dev ts ty v :: rows), w'.
  unfold mbind, M_bind. rewrite Hstep, Hloop.
  split; [done|]. split; [by rewrite fmap_cons, Hdevs|].
  split; [by constructor|]. split.
  { rewrite Hwire', Hwire, <- app_assoc. done. }
  split.
  - intros [|i] r Hr; simpl in Hr.
    + injection Hr as <-. simpl. rewrite Hothers by done. exact Hhere.
    + assert (device_id r ∈ l) as Hin.
      { rewrite <- Hdevs. apply list_elem_of_fmap_2.
        by apply list_elem_of_lookup_2 in Hr. }
      rewrite (Hrows i r Hr).
      assert (coming_event w1 i = coming_event w (S i)) as ->.
      { unfold coming_event. rewrite Hnet.
        destruct (net w); simpl; [by rewrite drop_nil|done]. }
      rewrite Hframe; [done|]. intros [= Heq]. apply Hnotin. by rewrite <- Heq.
  - intros dev' Hout. rewrite Hothers, Hframe; [done| |].
    + intros [= ->]. apply Hout. by left.
    + intros ?. apply Hout. by right.
Qed.

(** X14: with draws in the unit interval, a live session and a handle on a
    table that exists, one sweep raises nothing and sends one write per
    device of [DEVICE_IDS], in their order and all with the instant read
    before the loop, whether or not some of them fail; the row of a device
    is stored under that instant exactly when its own request reached the
    store, and otherwise what was stored there stays. *)
Theorem sweep_writes_every_device (w : world) (s : Session) (ks tbl : string) :
  rng_ok w = true →
  is_Some (tables (db w) !! (ks, tbl)) →
  ∃ rows w',
    generate_and_insert_data (Some s) (Some (Prepared (InsertT ks tbl))) w
    = (Ok tt, w') ∧
    device_id <$> rows = DEVICE_IDS ∧
    Forall (λ r, timestamp r = clock w) rows ∧
    wire w' = wire w ++ (write_of ks tbl <$> rows) ∧
    ∀ i r, rows !! i = Some r →
      reading_at w' ks tbl (device_id r) (clock w)
      = if outage (coming_event w i)
        then reading_at w ks tbl (device_id r) (clock w)
        else Some (sensor_type r, sensor_value r).
Proof.
  intros Hrng Htable. rewrite generate_and_insert_data_loop.
  destruct (sweep_run s ks tbl (clock w) DEVICE_IDS w NoDup_DEVICE_IDS
              Hrng Htable)
    as (rows & w' & Hloop & Hdevs & Hts & Hwire & Hrows & _).
  by exists rows, w'.
Qed.

Lemma sweep_writes_every_device_witness :
  ∃ rows w',
    generate_and_insert_data (Some Connected)
      (Some (Prepared (InsertT default_keyspace default_table))) busy_world
    = (Ok tt, w') ∧
    device_id <$> rows = DEVICE_IDS ∧
    Forall (λ r, timestamp r = clock busy_world) rows ∧
    wire w' = wire busy_world
              ++ (write_of default_keyspace default_table <$> rows) ∧
    ∀ i r, rows !! i = Some r →
      reading_at w' default_keyspace default_table (device_id r)
        (clock busy_world)
      = if outage (coming_event busy_world i)
        then reading_at busy_world default_keyspace default_table
               (device_id r) (clock busy_world)
        else Some (sensor_type r, sensor_value r).
Proof.
  apply (sweep_writes_every_device busy_world Connected default_keyspace
           default_table).
  - reflexivity.
  - vm_compute. eauto.
Defined.

(** ** The dashboard's view of the readings *)

#[global] Instance older_first_total : Total older_first.
Proof. intros r1 r2. unfold older_first. lia. Qed.

#[global] Instance older_first_trans : Transitive older_first.
Proof. intros r1 r2 r3. unfold older_first. lia. Qed.

Lemma StronglySorted_sublist {A} (R : relation A) (l1 l2 : list A) :
  l1 `sublist_of` l2 → StronglySorted R l2 → StronglySorted R l1.
Proof.
  induction 1 as [|x l1 l2 Hsub IH|x l1 l2 Hsub IH]; intros Hs.
  - constructor.
  - apply StronglySorted_inv in Hs as [Hs Hx]. constructor; [by apply IH|].
    apply Forall_forall. intros y Hy. rewrite Forall_forall in Hx.
    apply Hx. by eapply elem_of_sublist.
  - apply StronglySorted_inv in Hs as [Hs _]. by apply IH.
Qed.

Lemma NoDup_fmap_elem_inj {A B} (f : A → B) (l : list A) (x y : A) :
  NoDup (f <$> l) → x ∈ l → y ∈ l → f x = f y → x = y.
Proof.
  induction l as [|z l IH]; [by intros _ ?%elem_of_nil|].
  rewrite fmap_cons. intros [Hz Hl]%NoDup_cons Hx Hy Heq.
  apply elem_of_cons in Hx as [->|Hx], Hy as [->|Hy]; [done| | |by apply IH].
  - destruct Hz. rewrite Heq. by apply list_elem_of_fmap_2.
  - destruct Hz. rewrite <- Heq. by apply list_elem_of_fmap_2.
Qed.

(** Sorting rows of distinct instants that come newest first into
    ascending order reverses them. *)
Lemma sort_newest_first_rows (l : list reading) :
  StronglySorted newer_first l → NoDup (timestamp <$> l) →
  merge_sort older_first l = reverse l.
Proof.
  intros Hs Hn. apply (StronglySorted_unique_strong older_first).
  - intros x1 x2 Hx1 Hx2 H12 H21. unfold older_first in *.
    rewrite merge_sort_Permutation in Hx1. rewrite reverse_Permutation in Hx2.
    apply (NoDup_fmap_elem_inj timestamp l); [done..|lia].
  - apply StronglySorted_merge_sort; apply _.
  - apply Sorted_StronglySorted; [apply _|].
    apply (Sorted_reverse newer_first), StronglySorted_Sorted, Hs.
  - by rewrite merge_sort_Permutation, reverse_Permutation.
Qed.

(** X15: [filter_readings_by_sensor_type] hands an empty frame back as it is;
    of a frame with rows and the two column labels it returns, under the
    same labels, the rows of the sensor type, all of them and nothing
    else, in ascending order of their instants. *)
Theorem filter_readings_sorted_selection (df : DataFrame) (ty : string) :
  (frame_empty df = true → filter_readings_by_sensor_type df ty = Ok df) ∧
  (frame_empty df = false →
   "sensor_type" ∈ columns df → "timestamp" ∈ columns df →
   ∃ f, filter_readings_by_sensor_type df ty = Ok f ∧
     columns f = columns df ∧
     StronglySorted older_first (records f) ∧
     records f ≡ₚ filter (λ r, sensor_type r = ty) (records df) ∧
     (∀ r, r ∈ records f ↔ r ∈ records df ∧ sensor_type r = ty)).
Proof.
  unfold filter_readings_by_sensor_type. split.
  - by intros ->.
  - intros -> Hty Hts. rewrite !decide_True by done.
    eexists. split; [reflexivity|]. simpl. split; [done|].
    split; [apply StronglySorted_merge_sort; apply _|].
    split; [apply merge_sort_Permutation|].
    intros r. rewrite merge_sort_Permutation, list_elem_of_filter. tauto.
Qed.

Lemma filter_readings_sorted_selection_witness :
  filter_readings_by_sensor_type empty_frame "humidity" = Ok empty_frame ∧
  (∃ f, filter_readings_by_sensor_type
          (Frame reading_columns
             [Reading "device_1" 3000 "humidity" 40;
              Reading "device_1" 2000 "motion" 1;
              Reading "device_1" 1000 "humidity" 41]) "humidity" = Ok f ∧
     columns f = reading_columns ∧
     StronglySorted older_first (records f) ∧
     records f ≡ₚ filter (λ r, sensor_type r = "humidity")
                    [Reading "device_1" 3000 "humidity" 40;
                     Reading "device_1" 2000 "motion" 1;
                     Reading "device_1" 1000 "humidity" 41] ∧
     (∀ r, r ∈ records f ↔
           r ∈ [Reading "device_1" 3000 "humidity" 40;
                Reading "device_1" 2000 "motion" 1;
                Reading "device_1" 1000 "humidity" 41] ∧
           sensor_type r = "humidity")).
Proof.
  split.
  - apply (proj1 (filter_readings_sorted_selection empty_frame "humidity")).
    reflexivity.
  - apply (proj2 (filter_readings_sorted_selection
                    (Frame reading_columns
                       [Reading "device_1" 3000 "humidity" 40;
                        Reading "device_1" 2000 "motion" 1;
                        Reading "device_1" 1000 "humidity" 41]) "humidity")).
    + reflexivity.
    + apply (bool_decide_unpack _). reflexivity.
    + apply (bool_decide_unpack _). reflexivity.
Defined.

(** X16: what the dashboard shows of a device: the frame that
    [get_recent_readings] fetched, passed through
    [filter_readings_by_sensor_type], holds the fetched rows of the sensor
    type from the oldest to the newest, so that its last row, the "latest
    reading", is the newest fetched row of that type. *)
Theorem dashboard_latest_is_newest (w : world) (s : Session) (dev : string)
    (limit : Z) (ks tbl ty : string) :
  is_Some (tables (db w) !! (ks, tbl)) →
  available 2 w = true →
  0 < limit →
  ∃ df f w', get_recent_readings (Some s) dev limit ks tbl w = (Ok df, w') ∧
    filter_readings_by_sensor_type df ty = Ok f ∧
    records f = reverse (filter (λ r, sensor_type r = ty) (records df)) ∧
    latest_row f = head (filter (λ r, sensor_type r = ty) (records df)).
Proof.
  intros [t Ht] Hav Hlimit.
  destruct (get_recent_readings_answered w s dev limit ks tbl t Ht Hav Hlimit)
    as (w' & Hrun & _).
  set (rows := take (Z.to_nat limit) (partition_rows t dev)) in *.
  assert (Hsorted : StronglySorted newer_first
                      (filter (λ r, sensor_type r = ty) rows)).
  { eapply StronglySorted_sublist; [apply sublist_filter|].
    apply StronglySorted_take, partition_rows_sorted. }
  assert (Hnodup : NoDup (timestamp <$> filter (λ r, sensor_type r = ty) rows)).
  { eapply sublist_NoDup; [apply partition_rows_NoDup|].
    apply fmap_sublist. etrans; [apply sublist_filter|apply sublist_take]. }
  assert (Hfilter : ∃ f, filter_readings_by_sensor_type
                           (Frame reading_columns rows) ty = Ok f ∧
            records f = reverse (filter (λ r, sensor_type r = ty) rows)).
  { unfold filter_readings_by_sensor_type, frame_empty. simpl.
    destruct rows as [|r rows'] eqn:Hrows; simpl.
    - by exists (Frame reading_columns []).
    - eexists. split; [reflexivity|]. simpl.
      by apply sort_newest_first_rows. }
  destruct Hfilter as (f & Hf & Hrec).
  exists (Frame reading_columns rows), f, w'.
  split; [exact Hrun|]. split; [exact Hf|]. split; [exact Hrec|].
  unfold latest_row. rewrite Hrec. apply last_reverse.
Qed.

Lemma dashboard_latest_is_newest_witness :
  let w1 := snd (insert_sensor_reading live insert_prepared "device_1" 1000
                   "temperature" (45 # 2) fresh_world) in
  ∃ df f w', get_recent_readings (Some Connected) "device_1" 10
               default_keyspace default_table w1 = (Ok df, w') ∧
    filter_readings_by_sensor_type df "temperature" = Ok f ∧
    records f = reverse (filter (λ r, sensor_type r = "temperature")
                           (records df)) ∧
    latest_row f = head (filter (λ r, sensor_type r = "temperature")
                           (records df)).
Proof.
  apply (dashboard_latest_is_newest _ Connected "device_1" 10
           default_keyspace default_table "temperature").
  - vm_compute. eauto.
  - vm_compute. reflexivity.
  - lia.
Defined.

(** ** The prompt for recent readings *)

(** What a run of [get_recent_readings] leaves behind. *)
Lemma get_recent_readings_trace (w : world) (session : option Session)
    (dev : string) (limit : Z) (ks tbl : string) :
  ∃ df w', get_recent_readings session dev limit ks tbl w = (Ok df, w') ∧
    db w' = db w ∧ stdin w' = stdin w ∧
    (∃ sent, wire w' = wire w ++ sent ∧
       ∀ req, req ∈ sent →
         req = Prepare (RecentT ks tbl) ∨
         req = Execute (SelectRecent ks tbl dev limit)) ∧
    ∃ said, stdout w' = stdout w ++ said.
Proof.
  assert (Hreqs : ∀ req : request,
            req ∈ [Prepare (RecentT ks tbl);
                   Execute (SelectRecent ks tbl dev limit)] →
            req = Prepare (RecentT ks tbl) ∨
            req = Execute (SelectRecent ks tbl dev limit)).
  { intros req [->|[->|[]%elem_of_nil]%elem_of_cons]%elem_of_cons; eauto. }
  assert (Hreq : ∀ req : request, req ∈ [Prepare (RecentT ks tbl)] →
            req = Prepare (RecentT ks tbl) ∨
            req = Execute (SelectRecent ks tbl dev limit)).
  { intros req [->|[]%elem_of_nil]%elem_of_cons; eauto. }
  unfold get_recent_readings. destruct session as [s|]; monad_unfold; simpl.
  2: { eexists _, _. split; [reflexivity|]. simpl. split; [done|].
       split; [done|]. split; [|eauto].
       exists []. rewrite app_nil_r. split; [done|]. by intros ? ?%elem_of_nil. }
  destruct (outage (hd default_event (net w))); simpl.
  { eexists _, _. split; [reflexivity|]. simpl. eauto 10. }
  destruct (tables (db w) !! (ks, tbl)) as [t|] eqn:Ht; simpl.
  2: { eexists _, _. split; [reflexivity|]. simpl. eauto 10. }
  destruct (outage (hd default_event (tl (net w)))); simpl.
  { eexists _, _. split; [reflexivity|]. simpl. rewrite <- app_assoc.
    eauto 10. }
  rewrite Ht. destruct (decide (0 < limit)); simpl.
  2: { eexists _, _. split; [reflexivity|]. simpl. rewrite <- app_assoc.
       eauto 10. }
  destruct (take (Z.to_nat limit) (partition_rows t dev)); simpl;
    (eexists _, _; split; [reflexivity|]; simpl; rewrite <- app_assoc;
     split; [done|]; split; [done|]; split; [eauto|]).
  - eauto.
  - exists []. by rewrite app_nil_r.
Qed.

Section prompt.
Variable strip : string → string.
Variable int_of_str : string → option Z.
Local Opaque get_recent_readings.

(** X17: a limit that is left empty, or that [int] cannot read, becomes 10:
    the prompt then asks the store for the 10 latest readings of the device
    typed, and for nothing else. *)
Theorem display_recent_readings_default_limit (w : world)
    (session : option Session) (line1 line2 : string) (rest : list string) :
  stdin w = line1 :: line2 :: rest →
  strip line1 ≠ EmptyString →
  strip line2 = EmptyString ∨ int_of_str (strip line2) = None →
  ∃ w', display_recent_readings strip int_of_str session w = (Ok tt, w') ∧
    stdin w' = rest ∧
    db w' = db w ∧
    Fetching 10 (strip line1) ∈ stdout w' ∧
    ∃ sent, wire w' = wire w ++ sent ∧
      ∀ req, req ∈ sent →
        req = Prepare (RecentT default_keyspace default_table) ∨
        req = Execute (SelectRecent default_keyspace default_table
                         (strip line1) 10).
Proof.
  intros Hin H1 H2.
  unfold display_recent_readings, read_limit, input. monad_unfold. simpl.
  rewrite Hin. simpl. rewrite decide_False by done. simpl.
  destruct H2 as [H2|H2].
  - rewrite decide_True by done. simpl.
    match goal with
    | |- context [get_recent_readings ?a ?b ?c ?d ?e ?W] =>
        destruct (get_recent_readings_trace W a b c d e)
          as (df & w' & Hrun & Hdb & Hstdin & (sent & Hwire & Hsent)
              & (said & Hsaid)); rewrite Hrun
    end.
    destruct (frame_empty df); simpl;
      (eexists; split; [reflexivity|]; simpl;
       rewrite Hstdin, Hdb, Hsaid, Hwire; simpl;
       split; [done|]; split; [done|]; split; [set_solver|eauto]).
  - destruct (decide (strip line2 = EmptyString)) as [He|He]; simpl.
    + match goal with
      | |- context [get_recent_readings ?a ?b ?c ?d ?e ?W] =>
          destruct (get_recent_readings_trace W a b c d e)
            as (df & w' & Hrun & Hdb & Hstdin & (sent & Hwire & Hsent)
                & (said & Hsaid)); rewrite Hrun
      end.
      destruct (frame_empty df); simpl;
        (eexists; split; [reflexivity|]; simpl;
         rewrite Hstdin, Hdb, Hsaid, Hwire; simpl;
         split; [done|]; split; [done|]; split; [set_solver|eauto]).
    + rewrite H2. unfold raise. simpl.
      match goal with
      | |- context [get_recent_readings ?a ?b ?c ?d ?e ?W] =>
          destruct (get_recent_readings_trace W a b c d e)
            as (df & w' & Hrun & Hdb & Hstdin & (sent & Hwire & Hsent)
                & (said & Hsaid)); rewrite Hrun
      end.
      destruct (frame_empty df); simpl;
        (eexists; split; [reflexivity|]; simpl;
         rewrite Hstdin, Hdb, Hsaid, Hwire; simpl;
         split; [done|]; split; [done|]; split; [set_solver|eauto]).
Qed.

(** X18: the ends of the input.  An empty device id ends the prompt with a
    message and without a request; an input that stops before the device
    id, or before the limit, is not caught: the prompt raises [EOFError],
    having sent nothing. *)
Theorem display_recent_readings_short_input (w : world)
    (session : option Session) :
  (∀ line1 rest, stdin w = line1 :: rest → strip line1 = EmptyString →
     display_recent_readings strip int_of_str session w
     = (Ok tt, say DeviceIdEmpty
                 (World (db w) (net w) (clock w) (rng w) rest
                        (stdout w ++ [RecentBanner]) (wire w)))) ∧
  (stdin w = [] →
   display_recent_readings strip int_of_str session w
   = (Raise EOFError, say RecentBanner w)) ∧
  (∀ line1, stdin w = [line1] → strip line1 ≠ EmptyString →
     ∃ w', display_recent_readings strip int_of_str session w
           = (Raise EOFError, w') ∧
       wire w' = wire w ∧ db w' = db w).
Proof.
  split; [|split].
  - intros line1 rest Hin H1.
    unfold display_recent_readings, input. monad_unfold. simpl.
    rewrite Hin. simpl. by rewrite decide_True.
  - intros Hin. unfold display_recent_readings, input. monad_unfold. simpl.
    by rewrite Hin.
  - intros line1 Hin H1.
    unfold display_recent_readings, read_limit, input. monad_unfold. simpl.
    rewrite Hin. simpl. rewrite decide_False by done. simpl.
    eexists. split; [reflexivity|]. done.
Qed.
End prompt.

Lemma display_recent_readings_default_limit_witness :
  ∃ w', display_recent_readings id decimal_int live
          (World fresh_db [] 0 [] ["device_1"; "ten"] [] []) = (Ok tt, w') ∧
    stdin w' = [] ∧
    db w' = fresh_db ∧
    Fetching 10 (id "device_1") ∈ stdout w' ∧
    ∃ sent, wire w' = [] ++ sent ∧
      ∀ req, req ∈ sent →
        req = Prepare (RecentT default_keyspace default_table) ∨
        req = Execute (SelectRecent default_keyspace default_table
                         (id "device_1") 10).
Proof.
  apply (display_recent_readings_default_limit id decimal_int
           (World fresh_db [] 0 [] ["device_1"; "ten"] [] []) live
           "device_1" "ten" []).
  - reflexivity.
  - discriminate.
  - right. vm_compute. reflexivity.
Defined.

Lemma display_recent_readings_short_input_witness :
  display_recent_readings id decimal_int live
    (World fresh_db [] 0 [] [EmptyString; "5"] [] [])
  = (Ok tt, say DeviceIdEmpty
              (World fresh_db [] 0 [] ["5"] ([] ++ [RecentBanner]) [])) ∧
  display_recent_readings id decimal_int live fresh_world
  = (Raise EOFError, say RecentBanner fresh_world) ∧
  (∃ w', display_recent_readings id decimal_int live
           (World fresh_db [] 0 [] ["device_1"] [] [])
         = (Raise EOFError, w') ∧
     wire w' = [] ∧ db w' = fresh_db).
Proof.
  split; [|split].
  - apply (proj1 (display_recent_readings_short_input id decimal_int
                    (World fresh_db [] 0 [] [EmptyString; "5"] [] []) live)
             EmptyString ["5"]); reflexivity.
  - apply (proj1 (proj2 (display_recent_readings_short_input id decimal_int
                           fresh_world live))). reflexivity.
  - apply (proj2 (proj2 (display_recent_readings_short_input id decimal_int
                           (World fresh_db [] 0 [] ["device_1"] [] []) live))
             "device_1"); [reflexivity|discriminate].
Defined.

(** ** Connecting *)

Lemma tidy_fresh (r : process) :
  tidy r = true → next_cluster r ∉ open_clusters r.
Proof.
  unfold tidy. intros Htidy%bool_decide_eq_true Hin.
  specialize (Htidy _ Hin). simpl in Htidy. lia.
Qed.

Lemma tidy_intro (r : process) :
  (∀ i, i ∈ open_clusters r → (i < next_cluster r)%nat) → tidy r = true.
Proof. intros Hall. apply bool_decide_eq_true. exact Hall. Qed.

Lemma tidy_elim (r : process) (i : nat) :
  tidy r = true → i ∈ open_clusters r → (i < next_cluster r)%nat.
Proof. intros Htidy%bool_decide_eq_true Hin. exact (Htidy _ Hin). Qed.

Lemma shut_fresh (X : gset nat) (n : nat) : n ∉ X → X ∖ {[n]} = X.
Proof.
  intros Hn. apply set_eq. intros i.
  rewrite elem_of_difference, elem_of_singleton. split; [by intros [? _]|].
  intros Hi. split; [done|]. by intros ->.
Qed.

Lemma shut_opened (X : gset nat) (n : nat) : n ∉ X → ({[n]} ∪ X) ∖ {[n]} = X.
Proof.
  intros Hn. apply set_eq. intros i.
  rewrite elem_of_difference, elem_of_union, elem_of_singleton. split.
  - by intros [[?|?] ?].
  - intros Hi. split; [by right|]. by intros ->.
Qed.

Section connecting.
Local Opaque create_keyspace_if_not_exists create_table.

(** What a run of [get_session] leaves behind. *)
Lemma get_session_run (r : process) (host : string) (port : Z)
    (ks : string) (rf : Z) :
  tidy r = true →
  ∃ res r', get_session host port ks rf r = (Ok res, r') ∧
    tidy r' = true ∧
    tables (db (ground r')) = tables (db (ground r)) ∧
    (∀ k f, keyspaces (db (ground r)) !! k = Some f →
            keyspaces (db (ground r')) !! k = Some f) ∧
    match res with
    | Some (s, c) =>
        is_Some (keyspaces (db (ground r')) !! ks) ∧
        (cluster_id c ∉ open_clusters r) ∧
        open_clusters r' = {[cluster_id c]} ∪ open_clusters r
    | None => open_clusters r' = open_clusters r
    end.
Proof.
  intros Htidy. pose proof (tidy_fresh r Htidy) as Hfresh.
  assert (Hin : ∀ i, i ∈ open_clusters r → (i < S (next_cluster r))%nat).
  { intros i Hi. pose proof (tidy_elim r i Htidy Hi). lia. }
  unfold get_session, create_connection. process_unfold. simpl.
  destruct (outage (hd default_event (net (ground r)))); simpl.
  { eexists None, _. split; [reflexivity|]. simpl.
    split; [apply tidy_intro; simpl; intros i [? _]%elem_of_difference;
            by apply Hin|].
    split; [done|]. split; [done|]. by apply shut_fresh. }
  match goal with
  | |- context [create_keyspace_if_not_exists ?a ?b ?c ?W] =>
      destruct (create_keyspace_effect W a b c)
        as (created & w1 & Hrun & Htables & Hkeep & Hnew);
      pose proof (create_keyspace_true W w1 a b c) as Htrue;
      rewrite Hrun in *
  end.
  simpl in Htables.
  destruct created; simpl.
  2: { eexists None, _. split; [reflexivity|]. simpl.
       split; [apply tidy_intro; simpl; intros i [Hi _]%elem_of_difference;
               apply elem_of_union in Hi as [->%elem_of_singleton|Hi];
               [lia|by apply Hin]|].
       split; [done|]. split; [done|]. by apply shut_opened. }
  destruct (Htrue eq_refl) as (_ & _ & Hks).
  destruct (outage (hd default_event (net w1))); simpl.
  { eexists None, _. split; [reflexivity|]. simpl.
    split; [apply tidy_intro; simpl; intros i [Hi _]%elem_of_difference;
            apply elem_of_union in Hi as [->%elem_of_singleton|Hi];
            [lia|by apply Hin]|].
    split; [done|]. split; [done|]. by apply shut_opened. }
  destruct Hks as [f Hks]. rewrite Hks. simpl.
  eexists (Some _), _. split; [reflexivity|]. simpl.
  split.
  { apply tidy_intro. simpl. intros i [->%elem_of_singleton|Hi]%elem_of_union;
      [lia|by apply Hin]. }
  split; [done|]. split; [done|]. rewrite Hks. eauto.
Qed.

(** X19: [get_session] raises nothing and leaves the tables alone.  When it
    returns a session, the keyspace exists and one cluster more is open,
    its own; when it returns [(None, None)], whatever it opened is shut
    again: the clusters that are open are those that were. *)
Theorem get_session_result (r : process) (host : string) (port : Z)
    (ks : string) (rf : Z) :
  tidy r = true →
  ∃ res r', get_session host port ks rf r = (Ok res, r') ∧
    tidy r' = true ∧
    tables (db (ground r')) = tables (db (ground r)) ∧
    match res with
    | Some (s, c) =>
        is_Some (keyspaces (db (ground r')) !! ks) ∧
        (cluster_id c ∉ open_clusters r) ∧
        open_clusters r' = {[cluster_id c]} ∪ open_clusters r
    | None => open_clusters r' = open_clusters r
    end.
Proof.
  intros Htidy.
  destruct (get_session_run r host port ks rf Htidy)
    as (res & r' & Hrun & Htidy' & Htables & _ & Hres).
  by exists res, r'.
Qed.

(** X20: [setup_schema] raises nothing.  When it returns a session, keyspace
    and table exist and one cluster more is open, its own; when it returns
    [(None, None)] the clusters that are open are those that were. *)
Theorem setup_schema_result (r : process) (host : string) (port : Z)
    (ks tbl : string) :
  tidy r = true →
  ∃ res r', setup_schema host port ks tbl r = (Ok res, r') ∧
    tidy r' = true ∧
    match res with
    | Some (s, c) =>
        is_Some (keyspaces (db (ground r')) !! ks) ∧
        is_Some (tables (db (ground r')) !! (ks, tbl)) ∧
        (cluster_id c ∉ open_clusters r) ∧
        open_clusters r' = {[cluster_id c]} ∪ open_clusters r
    | None => open_clusters r' = open_clusters r
    end.
Proof.
  intros Htidy.
  destruct (get_session_run r host port ks default_replication_factor Htidy)
    as (res & r1 & Hrun & Htidy1 & _ & _ & Hres).
  unfold setup_schema. unfold mbind at 1, P_bind at 1. rewrite Hrun.
  destruct res as [[s c]|].
  2: { eexists None, r1. split; [reflexivity|]. done. }
  destruct Hres as (Hks & Hfresh & Hopen).
  process_unfold. simpl.
  match goal with
  | |- context [create_table ?a ?b ?c ?W] =>
      destruct (create_table_effect W a b c) as (created & w2 & Hct & Hdb);
      pose proof (create_table_true W w2 a b c) as Htrue;
      rewrite Hct in *
  end.
  assert (Hkeys : keyspaces (db w2) = keyspaces (db (ground r1))).
  { destruct Hdb as [->|(_ & _ & _ & ->)]; done. }
  destruct created; simpl.
  - destruct (Htrue eq_refl) as (_ & _ & Htbl).
    eexists (Some _), _. split; [reflexivity|]. simpl.
    split; [exact Htidy1|]. rewrite Hkeys. done.
  - eexists None, _. split; [reflexivity|]. simpl. split.
    + apply tidy_intro. simpl. intros i [Hi _]%elem_of_difference.
      by apply (tidy_elim r1).
    + rewrite Hopen. by apply shut_opened.
Qed.
End connecting.

Lemma get_session_result_witness :
  ∃ res r', get_session default_host default_port default_keyspace 1
              (start blank_world) = (Ok res, r') ∧
    tidy r' = true ∧
    tables (db (ground r')) = tables (db (ground (start blank_world))) ∧
    match res with
    | Some (s, c) =>
        is_Some (keyspaces (db (ground r')) !! default_keyspace) ∧
        (cluster_id c ∉ open_clusters (start blank_world)) ∧
        open_clusters r' = {[cluster_id c]} ∪ open_clusters (start blank_world)
    | None => open_clusters r' = open_clusters (start blank_world)
    end.
Proof.
  apply (get_session_result (start blank_world) default_host default_port
           default_keyspace 1).
  vm_compute. reflexivity.
Defined.

Lemma setup_schema_result_witness :
  ∃ res r', setup_schema default_host default_port default_keyspace
              default_table (start blank_world) = (Ok res, r') ∧
    tidy r' = true ∧
    match res with
    | Some (s, c) =>
        is_Some (keyspaces (db (ground r')) !! default_keyspace) ∧
        is_Some (tables (db (ground r'))
                   !! (default_keyspace, default_table)) ∧
        (cluster_id c ∉ open_clusters (start blank_world)) ∧
        open_clusters r' = {[cluster_id c]} ∪ open_clusters (start blank_world)
    | None => open_clusters r' = open_clusters (start blank_world)
    end.
Proof.
  apply (setup_schema_result (start blank_world) default_host default_port
           default_keyspace default_table).
  vm_compute. reflexivity.
Defined.

(** ** Reaching the store *)

Lemma available_events (n : nat) (w : world) (i : nat) :
  available n w = true → (i < n)%nat → outage (coming_event w i) = false.
Proof.
  unfold available, coming_event. generalize (net w). intros l.
  revert n i. induction l as [|ev l IH]; intros n i Hav Hi.
  - by rewrite drop_nil.
  - destruct n as [|n]; [lia|]. simpl in Hav.
    apply andb_true_iff in Hav as [Hev Hav].
    destruct i as [|i]; simpl.
    + by apply negb_true_iff.
    + apply (IH n); [done|lia].
Qed.

Lemma coming_event_2 (w : world) :
  coming_event w 2 = hd default_event (tl (tl (net w))).
Proof.
  unfold coming_event. by destruct (net w) as [|e1 [|e2 [|e3 l]]].
Qed.

Lemma coming_event_3 (w : world) :
  coming_event w 3 = hd default_event (tl (tl (tl (net w)))).
Proof.
  unfold coming_event. by destruct (net w) as [|e1 [|e2 [|e3 [|e4 l]]]].
Qed.

(** X21: when the store answers, [get_session] returns a session exactly when
    the keyspace is there or the store accepts the replication factor for
    a new one.  When the store cannot be reached, the connection fails:
    [(None, None)] comes back after the message, with no statement sent and
    the database as it was. *)
Theorem get_session_outcome :
  (∀ (r : process) (host : string) (port : Z) (ks : string) (rf : Z),
     available 4 (ground r) = true →
     ∃ res r', get_session host port ks rf r = (Ok res, r') ∧
       (is_Some res ↔
        is_Some (keyspaces (db (ground r)) !! ks) ∨
        accepts_replication (db (ground r)) rf = true)) ∧
  (∀ (r : process) (host : string) (port : Z) (ks : string) (rf : Z),
     available 1 (ground r) = false →
     ∃ r', get_session host port ks rf r = (Ok None, r') ∧
       db (ground r') = db (ground r) ∧
       wire (ground r') = wire (ground r) ∧
       journal r' = journal r ++ [Noted (ConnectFailed NoHostAvailable)]).
Proof.
  split.
  - intros r host port ks rf Hav.
    pose proof (available_events 4 _ 0 Hav ltac:(lia)) as H0.
    pose proof (available_events 4 _ 1 Hav ltac:(lia)) as H1.
    pose proof (available_events 4 _ 2 Hav ltac:(lia)) as H2.
    pose proof (available_events 4 _ 3 Hav ltac:(lia)) as H3.
    rewrite coming_event_0 in H0. rewrite coming_event_1 in H1.
    rewrite coming_event_2 in H2. rewrite coming_event_3 in H3.
    unfold get_session, create_connection, create_keyspace_if_not_exists.
    process_unfold. monad_unfold. simpl.
    rewrite H0. simpl. rewrite H1. simpl.
    destruct (keyspaces (db (ground r)) !! ks) as [f|] eqn:Hks; simpl.
    + rewrite H2. simpl. rewrite Hks. simpl.
      eexists (Some _), _. split; [reflexivity|]. split; eauto.
    + rewrite H2. simpl. rewrite Hks.
      destruct (accepts_replication (db (ground r)) rf) eqn:Hrf; simpl.
      * rewrite H3. simpl. rewrite lookup_insert_eq. simpl.
        eexists (Some _), _. split; [reflexivity|]. split; eauto.
      * eexists None, _. split; [reflexivity|]. split.
        -- by intros [? [=]].
        -- intros [[? [=]]|[=]].
  - intros r host port ks rf Hav%unavailable_1.
    unfold get_session, create_connection. process_unfold. simpl.
    rewrite Hav. simpl. eexists. split; [reflexivity|]. simpl.
    rewrite drop_all. simpl. by rewrite app_nil_r.
Qed.

Lemma get_session_outcome_witness :
  (∃ res r', get_session default_host default_port default_keyspace 1
               (start blank_world) = (Ok res, r') ∧
     (is_Some res ↔
      is_Some (keyspaces (db (ground (start blank_world)))
                 !! default_keyspace) ∨
      accepts_replication (db (ground (start blank_world))) 1 = true)) ∧
  (∃ r', get_session default_host default_port default_keyspace 1
           (start unreachable_world) = (Ok None, r') ∧
     db (ground r') = db (ground (start unreachable_world)) ∧
     wire (ground r') = wire (ground (start unreachable_world)) ∧
     journal r' = journal (start unreachable_world)
                  ++ [Noted (ConnectFailed NoHostAvailable)]).
Proof.
  split.
  - apply (proj1 get_session_outcome (start blank_world)). reflexivity.
  - apply (proj2 get_session_outcome (start unreachable_world)). reflexivity.
Defined.

(** ** The menu *)

Lemma untouched_refl (w : world) : untouched w w.
Proof. split; [done|]. split; [|done]. exists []. by rewrite app_nil_r. Qed.

Lemma untouched_trans (w1 w2 w3 : world) :
  untouched w1 w2 → untouched w2 w3 → untouched w1 w3.
Proof.
  intros (Hdb1 & (s1 & Hw1 & Hs1) & Hin1) (Hdb2 & (s2 & Hw2 & Hs2) & Hin2).
  split; [congruence|]. split.
  - exists (s1 ++ s2). rewrite Hw2, Hw1, <- app_assoc. split; [done|].
    rewrite forallb_app. by rewrite Hs1, Hs2.
  - by transitivity (stdin w2).
Qed.

Lemma only_read_untouched (w w' : world) : only_read w w' → untouched w w'.
Proof.
  intros (Hdb & _ & Hin & Hsent). split; [done|]. split; [done|].
  by rewrite Hin.
Qed.

Lemma harmless_ret {A} (a : A) : harmless (mret a : M A).
Proof. intros w. apply untouched_refl. Qed.

Lemma harmless_raise {A} (e : exn) : harmless (raise e : M A).
Proof. intros w. apply untouched_refl. Qed.

Lemma harmless_print (m : message) : harmless (print m).
Proof.
  intros w. simpl. split; [done|]. split; [|done].
  exists []. by rewrite app_nil_r.
Qed.

Lemma harmless_input : harmless input.
Proof.
  intros w. unfold input. destruct (stdin w) as [|line rest] eqn:Hin; simpl.
  - apply untouched_refl.
  - split; [done|]. split; [|by rewrite Hin; apply suffix_cons_r].
    exists []. by rewrite app_nil_r.
Qed.

Lemma harmless_bind {A B} (m : M A) (k : A → M B) :
  harmless m → (∀ a, harmless (k a)) → harmless (m ≫= k).
Proof.
  intros Hm Hk w. unfold mbind, M_bind. specialize (Hm w).
  destruct (m w) as [[a|e] w1]; simpl in *; [|done].
  apply (untouched_trans _ w1); [done|]. apply Hk.
Qed.

Lemma harmless_fmap {A B} (f : A → B) (m : M A) :
  harmless m → harmless (f <$> m).
Proof.
  intros Hm w. unfold fmap, M_fmap. specialize (Hm w).
  by destruct (m w) as [[a|e] w1].
Qed.

Lemma harmless_try_except {A} (body : M A) (handler : exn → M A) :
  harmless body → (∀ e, harmless (handler e)) →
  harmless (try_except body handler).
Proof.
  intros Hm Hk w. unfold try_except. specialize (Hm w).
  destruct (body w) as [[a|e] w1]; simpl in *; [done|].
  apply (untouched_trans _ w1); [done|]. apply Hk.
Qed.

Lemma harmless_get_recent_readings (session : option Session) (dev : string)
    (limit : Z) (ks tbl : string) :
  harmless (get_recent_readings session dev limit ks tbl).
Proof.
  intros w.
  destruct (get_recent_readings_only_read w session dev limit ks tbl)
    as (df & w' & -> & Hread).
  by apply only_read_untouched.
Qed.

Lemma harmless_get_average_value (session : option Session)
    (dev ty ks tbl : string) :
  harmless (get_average_value session dev ty ks tbl).
Proof.
  intros w.
  destruct (get_average_value_only_read w session dev ty ks tbl)
    as (o & w' & -> & Hread).
  by apply only_read_untouched.
Qed.

Lemma harmless_get_all_devices (session : option Session) (ks tbl : string) :
  harmless (get_all_devices session ks tbl).
Proof.
  intros w.
  destruct (get_all_devices_only_read w session ks tbl)
    as (l & w' & -> & Hread).
  by apply only_read_untouched.
Qed.

Lemma harmless_display_recent_readings (strip : string → string)
    (int_of_str : string → option Z) (session : option Session) :
  harmless (display_recent_readings strip int_of_str session).
Proof.
  unfold display_recent_readings, read_limit.
  apply harmless_bind; [apply harmless_print|intros _].
  apply harmless_bind; [apply harmless_fmap, harmless_input|intros dev].
  destruct (decide (dev = EmptyString)); [apply harmless_print|].
  apply harmless_bind.
  - apply harmless_try_except.
    + apply harmless_bind; [apply harmless_fmap, harmless_input|intros str].
      apply harmless_bind.
      * destruct (decide (str = EmptyString)); [apply harmless_ret|].
        destruct (int_of_str str); [apply harmless_ret|apply harmless_raise].
      * intros limit. destruct (decide (limit ≤ 0)); [|apply harmless_ret].
        apply harmless_bind; [apply harmless_print|intros _].
        apply harmless_ret.
    + intros e. destruct e; try apply harmless_raise.
      apply harmless_bind; [apply harmless_print|intros _].
      apply harmless_ret.
  - intros [limit|]; [|apply harmless_ret].
    apply harmless_bind; [apply harmless_print|intros _].
    apply harmless_bind; [apply harmless_get_recent_readings|intros df].
    destruct (frame_empty df); apply harmless_print.
Qed.

Lemma calm_ret {A} (a : A) : calm (mret a : P A).
Proof. intros r. split; [apply untouched_refl|done]. Qed.

Lemma calm_note (n : notice) : calm (note n).
Proof. intros r. split; [apply untouched_refl|done]. Qed.

Lemma calm_lift {A} (m : M A) : harmless m → calm (lift m).
Proof.
  intros Hm r. unfold lift. specialize (Hm (ground r)).
  by destruct (m (ground r)) as [o w'].
Qed.

Lemma calm_bind {A B} (p : P A) (k : A → P B) :
  calm p → (∀ a, calm (k a)) → calm (p ≫= k).
Proof.
  intros Hp Hk r. unfold mbind, P_bind. specialize (Hp r).
  destruct (p r) as [[a|e] r1]; simpl in *; [|done].
  destruct Hp as (Hu & Hn & Ho). destruct (Hk a r1) as (Hu' & Hn' & Ho').
  split; [by apply (untouched_trans _ (ground r1))|]. split; congruence.
Qed.

Lemma calm_attempt {A} (body : P A) (handler : exn → P A) :
  calm body → (∀ e, calm (handler e)) → calm (attempt body handler).
Proof.
  intros Hp Hk r. unfold attempt. specialize (Hp r).
  destruct (body r) as [[a|e] r1]; simpl in *; [done|].
  destruct Hp as (Hu & Hn & Ho). destruct (Hk e r1) as (Hu' & Hn' & Ho').
  split; [by apply (untouched_trans _ (ground r1))|]. split; congruence.
Qed.

Lemma calm_each {A} (l : list A) (body : A → P unit) :
  (∀ x, calm (body x)) → calm (each l body).
Proof.
  intros Hbody. induction l as [|x l IH]; simpl; [apply calm_ret|].
  apply calm_bind; [apply Hbody|by intros _].
Qed.

(** A handler that returns makes the whole [try] return. *)
Lemma attempt_returns {A} (body : P A) (handler : exn → P A) (r : process) :
  (∀ e r1, ∃ a r2, handler e r1 = (Ok a, r2)) →
  ∃ a r', attempt body handler r = (Ok a, r').
Proof.
  intros Hk. unfold attempt. destruct (body r) as [[a|e] r1]; eauto.
Qed.

Section menu_runs.
Variable strip : string → string.
Variable lower : string → string.
Variable int_of_str : string → option Z.

Lemma calm_display_averages (session : option Session) :
  calm (display_averages strip lower session).
Proof.
  unfold display_averages.
  apply calm_bind; [apply calm_note|intros _].
  apply calm_bind;
    [apply calm_lift, harmless_fmap, harmless_input|intros dev].
  destruct (decide (dev = EmptyString));
    [apply calm_lift, harmless_print|].
  apply calm_bind; [apply calm_note|intros _].
  apply calm_bind;
    [apply calm_lift, harmless_fmap, harmless_input|intros ty].
  destruct (decide (ty = EmptyString)); [apply calm_note|].
  apply calm_bind; [apply calm_note|intros _].
  apply calm_bind;
    [apply calm_lift, harmless_get_average_value|intros [a|]];
    apply calm_note.
Qed.

Lemma calm_display_all_devices (session : option Session) :
  calm (display_all_devices session).
Proof.
  unfold display_all_devices.
  apply calm_bind; [apply calm_note|intros _].
  apply calm_bind; [apply calm_note|intros _].
  apply calm_bind;
    [apply calm_lift, harmless_get_all_devices|intros [|d l]];
    [apply calm_note|].
  apply calm_bind; [apply calm_note|intros _].
  apply calm_bind; [|intros _; apply calm_note].
  apply calm_each. intros [i dev]. apply calm_note.
Qed.

Lemma calm_menu_turn (s : Session) :
  calm (menu_turn strip lower int_of_str s).
Proof.
  unfold menu_turn, show_menu.
  apply calm_bind; [apply calm_note|intros _].
  apply calm_attempt.
  - apply calm_bind;
      [apply calm_lift, harmless_fmap, harmless_input|intros choice].
    repeat case_decide;
      (apply calm_bind; [|intros _; apply calm_ret]).
    + apply calm_lift, harmless_display_recent_readings.
    + apply calm_display_averages.
    + apply calm_display_all_devices.
    + apply calm_note.
    + apply calm_note.
  - intros e. apply calm_bind; [apply calm_note|intros _; apply calm_ret].
Qed.

Lemma menu_turn_returns (s : Session) (r : process) :
  ∃ again r', menu_turn strip lower int_of_str s r = (Ok again, r').
Proof.
  unfold menu_turn, show_menu. unfold mbind at 1, P_bind at 1, note at 1.
  apply attempt_returns. intros e r1. by eexists _, _.
Qed.

(** What a run of the loop leaves behind. *)
Lemma menu_loop_run (fuel : nat) (s : Session) (r : process) :
  ∃ left r', menu_loop strip lower int_of_str fuel s r = (Ok left, r') ∧
    untouched (ground r) (ground r') ∧
    next_cluster r' = next_cluster r ∧
    open_clusters r' = open_clusters r.
Proof.
  revert r. induction fuel as [|fuel IH]; intros r; simpl.
  - eexists _, _. split; [reflexivity|]. split; [apply untouched_refl|done].
  - unfold mbind, P_bind.
    destruct (menu_turn_returns s r) as (again & r1 & Hturn).
    pose proof (calm_menu_turn s r) as (Hu & Hn & Ho).
    rewrite Hturn in *. simpl in *.
    destruct again.
    + destruct (IH r1) as (left & r2 & Hrun & Hu2 & Hn2 & Ho2).
      exists left, r2. split; [done|].
      split; [by apply (untouched_trans _ (ground r1))|]. split; congruence.
    + by eexists _, _.
Qed.

(** X22: the menu loop raises nothing, whatever is typed and whatever the
    store does: an error of a prompt ends the turn, not the loop.  It
    leaves the database as it is, every request that it sends is a read,
    and it opens and shuts no cluster. *)
Theorem menu_loop_only_reads (fuel : nat) (s : Session) (r : process) :
  ∃ left r', menu_loop strip lower int_of_str fuel s r = (Ok left, r') ∧
    db (ground r') = db (ground r) ∧
    (∃ sent, wire (ground r') = wire (ground r) ++ sent ∧
       forallb read_only sent = true) ∧
    open_clusters r' = open_clusters r.
Proof.
  destruct (menu_loop_run fuel s r)
    as (left & r' & Hrun & (Hdb & Hsent & _) & _ & Ho).
  by exists left, r'.
Qed.

(** X23: at the end of the input the loop does not end: [input] raises
    [EOFError], the handler of the loop prints it, and the menu comes
    again; no turn leaves the loop, sends a request or changes the
    world. *)
Theorem menu_loop_end_of_input (fuel : nat) (s : Session) (r : process) :
  stdin (ground r) = [] →
  ∃ r', menu_loop strip lower int_of_str fuel s r = (Ok false, r') ∧
    ground r' = ground r ∧
    open_clusters r' = open_clusters r ∧
    journal r'
    = journal r
      ++ mjoin (replicate fuel [Noted MenuShown; Noted (MenuError EOFError)]).
Proof.
  revert r. induction fuel as [|fuel IH]; intros r Hin; simpl.
  - eexists. split; [reflexivity|]. by rewrite app_nil_r.
  - unfold menu_turn, show_menu, input. process_unfold. monad_unfold. simpl.
    rewrite Hin. simpl. rewrite drop_all, app_nil_r. simpl.
    match goal with
    | |- context [menu_loop _ _ _ fuel s ?R] =>
        destruct (IH R) as (r' & Hrun & Hg & Ho & Hj); [done|]
    end.
    exists r'. split; [exact Hrun|]. split; [by rewrite Hg; destruct (ground r)|].
    split; [done|]. rewrite Hj. simpl. by rewrite <- !app_assoc.
Qed.

(** A turn says [break] only on a line that reads 4. *)
Lemma menu_turn_break (s : Session) (r r' : process) :
  menu_turn strip lower int_of_str s r = (Ok false, r') →
  ∃ line rest, stdin (ground r) = line :: rest ∧ strip line = "4".
Proof.
  unfold menu_turn, show_menu.
  unfold mbind at 1, P_bind at 1, note at 1. cbv beta iota.
  unfold attempt. unfold mbind at 1, P_bind at 1.
  unfold lift at 1, fmap, M_fmap, input. simpl.
  destruct (stdin (ground r)) as [|line rest] eqn:Hin; simpl.
  { process_unfold. simpl. congruence. }
  repeat case_decide.
  - unfold mbind, P_bind. destruct (lift _ _) as [[[]|e] r1];
      process_unfold; simpl; congruence.
  - unfold mbind at 1, P_bind at 1. destruct (display_averages _ _ _ _)
      as [[[]|e] r1]; process_unfold; simpl; congruence.
  - unfold mbind at 1, P_bind at 1. destruct (display_all_devices _ _)
      as [[[]|e] r1]; process_unfold; simpl; congruence.
  - intros _. by exists line, rest.
  - process_unfold. simpl. congruence.
Qed.

(** X24: the way out of the loop.  A line that reads 4 at the menu ends the
    loop at once, with the farewell and without a request; and the loop
    is left only so: when it was left, such a line was in the input. *)
Theorem menu_loop_exit (s : Session) (r : process) :
  (∀ fuel line rest, stdin (ground r) = line :: rest → strip line = "4" →
     ∃ r', menu_loop strip lower int_of_str (S fuel) s r = (Ok true, r') ∧
       stdin (ground r') = rest ∧
       wire (ground r') = wire (ground r) ∧
       journal r' = journal r ++ [Noted MenuShown; Noted Exiting]) ∧
  (∀ fuel r', menu_loop strip lower int_of_str fuel s r = (Ok true, r') →
     ∃ line, line ∈ stdin (ground r) ∧ strip line = "4").
Proof.
  split.
  - intros fuel line rest Hin Hline. simpl.
    unfold menu_turn, show_menu, input. process_unfold. monad_unfold. simpl.
    rewrite Hin. simpl. rewrite Hline. simpl.
    eexists. split; [reflexivity|]. simpl.
    rewrite drop_all, app_nil_r. by rewrite <- app_assoc.
  - intros fuel. revert r. induction fuel as [|fuel IH]; intros r r'; simpl.
    { unfold mret, P_ret. congruence. }
    unfold mbind, P_bind.
    destruct (menu_turn_returns s r) as (again & r1 & Hturn).
    pose proof (calm_menu_turn s r) as ((_ & _ & Hin) & _).
    rewrite Hturn in *. simpl in Hin. destruct again.
    + intros (line & Hline & H4)%IH. exists line. split; [|done].
      destruct Hin as [k ->]. apply elem_of_app. by right.
    + intros _. destruct (menu_turn_break s r r1 Hturn)
        as (line & rest & -> & H4).
      exists line. split; [left|done].
Qed.

(** X25: [run_cli] raises nothing and writes no row: the tables are as they
    were and every keyspace that was there is there; and when it returns,
    it leaves open only the clusters that were open before: the
    connection it made is closed. *)
Theorem run_cli_result (fuel : nat) (r : process) :
  tidy r = true →
  ∃ returned r', run_cli strip lower int_of_str fuel r = (Ok returned, r') ∧
    tables (db (ground r')) = tables (db (ground r)) ∧
    (∀ k f, keyspaces (db (ground r)) !! k = Some f →
            keyspaces (db (ground r')) !! k = Some f) ∧
    (returned = true → open_clusters r' = open_clusters r).
Proof.
  intros Htidy. unfold run_cli.
  unfold mbind at 1, P_bind at 1, note at 1. cbv beta iota.
  unfold mbind at 1, P_bind at 1, note at 1. cbv beta iota.
  unfold mbind at 1, P_bind at 1.
  match goal with
  | |- context [get_session ?h ?p ?k ?f ?R] =>
      destruct (get_session_run R h p k f Htidy)
        as (res & r1 & Hrun & Htidy1 & Htables & Hkeep & Hres)
  end.
  rewrite Hrun. simpl in Htables, Hkeep, Hres.
  destruct res as [[s c]|].
  2: { unfold mbind, P_bind, note, mret, P_ret. cbv beta iota.
       eexists _, _. split; [reflexivity|]. done. }
  destruct Hres as (_ & Hfresh & Hopen).
  unfold mbind at 1, P_bind at 1, note at 1. cbv beta iota.
  unfold mbind at 1, P_bind at 1.
  match goal with
  | |- context [menu_loop _ _ _ fuel s ?R] =>
      destruct (menu_loop_run fuel s R)
        as (left & r2 & Hloop & (Hdb & _ & _) & _ & Ho2)
  end.
  rewrite Hloop. simpl in Hdb, Ho2.
  destruct left.
  - process_unfold. simpl. eexists _, _. split; [reflexivity|]. simpl.
    rewrite Hdb. split; [done|]. split; [done|]. intros _.
    rewrite Ho2, Hopen. by apply shut_opened.
  - unfold mret, P_ret. eexists _, _. split; [reflexivity|].
    rewrite Hdb. done.
Qed.

Section averages.
Local Opaque get_average_value.

End averages.
End menu_runs.

Lemma menu_loop_only_reads_witness :
  ∃ left r',
    menu_loop id id decimal_int 4 Connected
      (start (World fresh_db [] 0 [] ["3"; "9"; "4"] [] [])) = (Ok left, r') ∧
    db (ground r') = fresh_db ∧
    (∃ sent, wire (ground r') = [] ++ sent ∧ forallb read_only sent = true) ∧
    open_clusters r' = ∅.
Proof.
  apply (menu_loop_only_reads id id decimal_int 4 Connected
           (start (World fresh_db [] 0 [] ["3"; "9"; "4"] [] []))).
Defined.

Lemma menu_loop_exit_witness :
  (∃ r', menu_loop id id decimal_int 1 Connected
           (start (World fresh_db [] 0 [] ["4"; "1"] [] [])) = (Ok true, r') ∧
     stdin (ground r') = ["1"] ∧
     wire (ground r') = [] ∧
     journal r' = [] ++ [Noted MenuShown; Noted Exiting]) ∧
  (∃ line, line ∈ ["7"; "4"] ∧ id line = "4").
Proof.
  split.
  - apply (proj1 (menu_loop_exit id id decimal_int Connected
                    (start (World fresh_db [] 0 [] ["4"; "1"] [] [])))
             0%nat "4" ["1"]); reflexivity.
  - apply (proj2 (menu_loop_exit id id decimal_int Connected
                    (start (World fresh_db [] 0 [] ["7"; "4"] [] [])))
             3%nat
             (menu_loop id id decimal_int 3 Connected
                (start (World fresh_db [] 0 [] ["7"; "4"] [] []))).2).
    vm_compute. reflexivity.
Defined.

Lemma menu_loop_end_of_input_witness :
  ∃ r', menu_loop id id decimal_int 3 Connected (start fresh_world)
        = (Ok false, r') ∧
    ground r' = fresh_world ∧
    open_clusters r' = ∅ ∧
    journal r'
    = [] ++ mjoin (replicate 3 [Noted MenuShown; Noted (MenuError EOFError)]).
Proof.
  apply (menu_loop_end_of_input id id decimal_int 3 Connected
           (start fresh_world)).
  reflexivity.
Defined.

Lemma run_cli_result_witness :
  ∃ returned r',
    run_cli id id decimal_int 5 (start (World fresh_db [] 0 [] ["3"; "4"] [] []))
    = (Ok returned, r') ∧
    tables (db (ground r')) = tables fresh_db ∧
    (∀ k f, keyspaces fresh_db !! k = Some f →
            keyspaces (db (ground r')) !! k = Some f) ∧
    (returned = true → open_clusters r' = ∅).
Proof.
  apply (run_cli_result id id decimal_int 5
           (start (World fresh_db [] 0 [] ["3"; "4"] [] []))).
  vm_compute. reflexivity.
Defined.



(** ** The metrics row of the dashboard *)

Section series.
Local Open Scope Q_scope.





End series.



Section row.
Local Open Scope Q_scope.
Local Opaque get_recent_readings get_average_value.

End row.

